(** * Dependency resolution of the TypeScript/JavaScript Gazelle extension

    A shallow embedding of [gazelle/resolve.go]: the import provider
    ([Imports]), the dependency resolver ([ResolveModuleDeps]) with its
    priority chain, and the serialisation helpers, followed by the
    properties of the specification that concern them.

    Go strings are byte strings and are modelled by [string]; the
    [treeset] of dependency strings is a red-black tree ordered by the
    byte-wise string comparator, modelled by [MSetRBT] over
    [String_as_OT]; the log output, the debug trace and the fatal flag are
    threaded through the loop as an explicit [State]. *)

From Stdlib Require Import String Ascii List Bool ZArith Lia.
From Stdlib Require Import MSetRBT MSetDecide OrdersEx.
From Stdlib Require Import Sorted SetoidList Morphisms RelationClasses.
Import ListNotations.
Local Open Scope list_scope.
Local Open Scope string_scope.

(** ** Helpers of the Go standard library: package [strings] and [path] *)

Module strings.

(** [strings.Join(elems, sep)]. *)
Definition Join (elems : list string) (sep : string) : string :=
  String.concat sep elems.

(** Membership of a byte in a cutset. *)
Fixpoint inCutset (c : ascii) (cutset : string) : bool :=
  match cutset with
  | EmptyString => false
  | String d rest => Ascii.eqb c d || inCutset c rest
  end.

(** [strings.TrimRight(s, cutset)]: [s] without its longest suffix made
    only of bytes that occur in [cutset]. The second argument is a set of
    bytes, not a suffix. *)
Fixpoint TrimRight (s cutset : string) : string :=
  match s with
  | EmptyString => EmptyString
  | String c rest =>
      match TrimRight rest cutset with
      | EmptyString => if inCutset c cutset then EmptyString
                       else String c EmptyString
      | kept => String c kept
      end
  end.

(** [sub] occurs in [s] as a contiguous run of bytes. *)
Definition occurs_in (sub s : string) : Prop :=
  exists before after, s = before ++ sub ++ after.

End strings.

Module path.

(** The elements of a slash separated path; [split "a//b" = [a; ; b]]. *)
Fixpoint split (s : string) : list string :=
  match s with
  | EmptyString => [EmptyString]
  | String c rest =>
      if Ascii.eqb c "/" then EmptyString :: split rest
      else match split rest with
           | [] => [String c EmptyString]
           | x :: xs => String c x :: xs
           end
  end.

Definition isRooted (s : string) : bool :=
  match s with
  | String c _ => Ascii.eqb c "/"
  | EmptyString => false
  end.

(** The element pass of [Clean]: empty and [.] elements are dropped, an
    inner [..] removes the element before it, a [..] at the start of a
    rooted path is dropped. [stack] holds the kept elements, last first. *)
Fixpoint cleanElems (rooted : bool) (stack elems : list string)
  : list string :=
  match elems with
  | [] => rev stack
  | e :: es =>
      if (e =? "") || (e =? ".") then cleanElems rooted stack es
      else if e =? ".." then
        match stack with
        | top :: below =>
            if top =? ".." then cleanElems rooted (e :: stack) es
            else cleanElems rooted below es
        | [] =>
            if rooted then cleanElems rooted [] es
            else cleanElems rooted [e] es
        end
      else cleanElems rooted (e :: stack) es
  end.

(** [path.Clean] / [filepath.Clean] on slash separated paths. *)
Definition Clean (p : string) : string :=
  let rooted := isRooted p in
  let out := String.concat "/" (cleanElems rooted [] (split p)) in
  if rooted then "/" ++ out
  else if out =? "" then "." else out.

(** [filepath.Join]: the elements from the first non-empty one on are
    joined with a slash and cleaned; all empty gives the empty string. *)
Fixpoint Join (elem : list string) : string :=
  match elem with
  | [] => ""
  | e :: rest =>
      if e =? "" then Join rest else Clean (String.concat "/" elem)
  end.

(** [filepath.Dir]: everything up to and including the last slash,
    cleaned. *)
Definition Dir (p : string) : string :=
  match removelast (split p) with
  | [] => Clean ""
  | ds => Clean (String.concat "/" ds ++ "/")
  end.

(** [path.Base]: the last element, trailing slashes removed first. *)
Definition Base (p : string) : string :=
  if p =? "" then "."
  else match rev (filter (fun e => negb (e =? "")) (split p)) with
       | last :: _ => last
       | [] => "/"
       end.

End path.

(** ** Labels ([bazel-gazelle/label]) *)

Module label.

Record Label := {
  Repo : string;
  Pkg : string;
  Name : string;
  Relative : bool
}.

Definition withRepo (l : Label) (repo : string) : Label :=
  {| Repo := repo; Pkg := Pkg l; Name := Name l; Relative := Relative l |}.

(** [l.Equal(other)]: the two labels are exactly the same. *)
Definition Equal (l other : Label) : bool :=
  (Repo l =? Repo other) && (Pkg l =? Pkg other)
  && (Name l =? Name other) && Bool.eqb (Relative l) (Relative other).

(** [l.Rel(repo, pkg)]: the label as seen from package [pkg] of
    repository [repo]. *)
Definition Rel (l : Label) (repo pkg : string) : Label :=
  if Relative l || negb (Repo l =? repo) then l
  else if Pkg l =? pkg then
    {| Repo := ""; Pkg := ""; Name := Name l; Relative := true |}
  else {| Repo := ""; Pkg := Pkg l; Name := Name l; Relative := false |}.

(** [l.String()]: the rendering of a label. *)
Definition String (l : Label) : string :=
  if Relative l then ":" ++ Name l
  else
    let repo :=
      if negb (Repo l =? "") && negb (Repo l =? "@") then "@" ++ Repo l
      else Repo l in
    if path.Base (Pkg l) =? Name l then repo ++ "//" ++ Pkg l
    else repo ++ "//" ++ Pkg l ++ ":" ++ Name l.

End label.

Abbreviation Label := label.Label.
Abbreviation Repo := label.Repo.
Abbreviation Pkg := label.Pkg.
Abbreviation Name := label.Name.
Abbreviation Relative := label.Relative.
Abbreviation withRepo := label.withRepo.

(** ** The dependency set ([gods/sets/treeset] with the string comparator) *)

Module TreeSet := MSetRBT.Make String_as_OT.
Module TreeSetDec := MSetDecide.WDecide TreeSet.

(** [set.Values()]: the members in iteration order. *)
Definition Values (set : TreeSet.t) : list string := TreeSet.elements set.

(** ** Data model *)

(** [resolve.ImportSpec]. *)
Record ImportSpec := {
  Lang : string;
  Imp : string
}.

(** An import statement found in a source file. *)
Record ImportStatement := {
  Path : string;
  SourcePath : string
}.

(** [resolve.FindResult]: an indexed rule and the rules it embeds. *)
Record FindResult := {
  FLabel : Label;
  Embeds : list Label
}.

(** [r.IsSelfImport(from)]. *)
Definition IsSelfImport (r : FindResult) (from : Label) : bool :=
  label.Equal from (FLabel r) || existsb (fun e => label.Equal from e) (Embeds r).

Inductive EnvironmentKind := EnvironmentNode | EnvironmentOther.

Definition EnvironmentKind_eqb (a b : EnvironmentKind) : bool :=
  match a, b with
  | EnvironmentNode, EnvironmentNode => true
  | EnvironmentOther, EnvironmentOther => true
  | _, _ => false
  end.

(** The configuration of one package, read through its accessors:
    [GetTsCompilerOptions().BaseDir], [GetTsConfigRule()],
    [GetNpmPackage(name)], [EnvironmentType()] and
    [ValidateImportStatements()]. *)
Record JsGazelleConfig := {
  BaseDir : string;
  GetTsConfigRule : string;
  GetNpmPackage : string -> option string;
  EnvironmentType : EnvironmentKind;
  ValidateImportStatements : bool
}.

(** [config.Config] as far as the resolver reads it: the override
    directives behind [resolve.FindRuleWithOverride(c, imp, lang)] and the
    per-package configurations [c.Exts[languageName].(Configs)[pkg]]. *)
Record Config := {
  FindRuleWithOverride : ImportSpec -> string -> option Label;
  Exts : string -> string -> JsGazelleConfig
}.

(** [resolve.RuleIndex] through [ix.FindRulesByImportWithConfig(c, imp, lang)]. *)
Record RuleIndex := {
  FindRulesByImportWithConfig : Config -> ImportSpec -> string -> list FindResult
}.

(** The language object with its two first-party registries. *)
Record TypeScript := {
  GetNamedPackage : string -> option string;
  GetImportableFile : string -> option string
}.

(** What [resolve.go] uses from the rest of the package and from the
    process: the constants [languageName] and [IgnoreImportsDirective], the
    helpers [stripImportExtensions], [isIndexFile] and [isNodeImport], the
    lexical [filepath.Rel] of the platform, and the value that
    [os.Getenv("EXPLAIN_DEPENDENCY")] returned when the package was
    initialised. *)
Record Globals := {
  languageName : string;
  IgnoreImportsDirective : string;
  stripImportExtensions : string -> string;
  isIndexFile : string -> bool;
  isNodeImport : string -> bool;
  filepath_Rel : string -> string -> option string;
  EXPLAIN_DEPENDENCY : string
}.

(** Modelled from the spec: the constant [indexFileName], declared outside
    [resolve.go]; the reserved index name is [index]. *)
Definition indexFileName : string := "index".

(** ** The import provider *)

(** The body of the inner loop of [Imports] for one candidate [spec] of the
    source file [src]: the extension-stripped spec and, for an index file,
    the directory of that spec passed through [strings.TrimRight]. *)
Definition provideSpec (g : Globals) (src spec : string) : list ImportSpec :=
  let spec := stripImportExtensions g spec in
  {| Lang := languageName g; Imp := spec |}
  :: (if isIndexFile g src
      then [{| Lang := languageName g;
               Imp := strings.TrimRight (path.Dir spec) indexFileName |}]
      else []).

(** The candidate specs of one source file: its full path and, when
    [filepath.Rel] succeeds with a different path, the path relative to the
    compiler's base directory. *)
Definition sourceSpecs (g : Globals) (baseDir src : string) : list string :=
  src :: match filepath_Rel g baseDir src with
         | None => []
         | Some rebasedSrc => if negb (rebasedSrc =? src) then [rebasedSrc] else []
         end.

(** The body of the outer loop of [Imports] for one entry of [srcs]. *)
Definition provideSrc (g : Globals) (baseDir pkg src : string) : list ImportSpec :=
  let src := path.Clean (path.Join [pkg; src]) in
  flat_map (provideSpec g src) (sourceSpecs g baseDir src).

(** [Imports(c, r, f)], with [srcs = r.AttrStrings("srcs")] and
    [pkg = f.Pkg]: the value returned, [None] being the nil slice returned
    when nothing is provided. The line printed when [filepath.Rel] fails and
    the debug line listing the result do not enter the value. *)
Definition Imports (g : Globals) (c : Config) (srcs : list string) (pkg : string)
  : option (list ImportSpec) :=
  let cfg := Exts c (languageName g) pkg in
  let baseDir := BaseDir cfg in
  let provides := flat_map (provideSrc g baseDir pkg) srcs in
  match provides with
  | [] => None
  | _ => Some provides
  end.

(** ** The dependency resolver *)

(** Which rule an explanation line names. *)
Inductive Explanation :=
| ByResolveDirective
| ByIndexedLabels
| ByDeclaredPackage (pkg : string)
| ByThirdPartyPackage (pkg : string)
| ByThirdPartyTypesPackage (typePkg : string).

(** The lines written through package [log], by their arguments. *)
Inductive LogLine :=
| Explaining (dep target sourcePath importPath : string) (how : Explanation)
| AmbiguityError (targets importPath sourcePath : string)
| ValidationError (target importPath sourcePath directive : string).

(** The lines written through the [DEBUG] helper. *)
Inductive DebugLine :=
| DebugResolve (importPath fromName : string)
| DebugMatches (fromName : string) (filteredMatches : list FindResult).

(** The variables of [ResolveModuleDeps] that the loop updates, with the
    two output streams. *)
Record State := {
  deps : TreeSet.t;
  hasFatalError : bool;
  log : list LogLine;
  debug : list DebugLine
}.

Definition initial : State :=
  {| deps := TreeSet.empty; hasFatalError := false; log := []; debug := [] |}.

(** [deps.Add(dep)]. *)
Definition Add (dep : string) (s : State) : State :=
  {| deps := TreeSet.add dep (deps s); hasFatalError := hasFatalError s;
     log := log s; debug := debug s |}.

Definition Printf (line : LogLine) (s : State) : State :=
  {| deps := deps s; hasFatalError := hasFatalError s;
     log := log s ++ [line]; debug := debug s |}.

Definition DEBUG (line : DebugLine) (s : State) : State :=
  {| deps := deps s; hasFatalError := hasFatalError s;
     log := log s; debug := debug s ++ [line] |}.

Definition setFatal (s : State) : State :=
  {| deps := deps s; hasFatalError := true; log := log s; debug := debug s |}.

(** [if EXPLAIN_DEPENDENCY == dep { log.Printf(...) }]. *)
Definition explain (g : Globals) (from : Label) (mod_ : ImportStatement)
  (dep : string) (how : Explanation) (s : State) : State :=
  if EXPLAIN_DEPENDENCY g =? dep
  then Printf (Explaining (EXPLAIN_DEPENDENCY g) (label.String from)
                 (SourcePath mod_) (Path mod_) how) s
  else s.

(** [targetListFromResults]. *)
Definition targetListFromResults (results : list FindResult) : string :=
  strings.Join (map (fun result => label.String (FLabel result)) results) ", ".

(** The matches that are not the requesting target. *)
Definition filterMatches (from : Label) (matches : list FindResult)
  : list FindResult :=
  filter (fun m => negb (IsSelfImport m from)) matches.

(** The override with an unset repository defaulted to the requester's. *)
Definition defaultRepo (from override : Label) : Label :=
  if Repo override =? "" then withRepo override (Repo from) else override.

(** The label as rendered by rule 1: the repository qualifier is dropped
    when it is the requester's. *)
Definition dropOwnRepo (from override : Label) : Label :=
  if Repo override =? Repo from then withRepo override "" else override.

(** Rule 1, the [gazelle:resolve] override: the label to render, or [None]
    when the override, its repository defaulted to the requester's, is the
    requesting target. *)
Definition overrideDep (from override : Label) : option Label :=
  let override := defaultRepo from override in
  if negb (label.Equal override from) then Some (dropOwnRepo from override)
  else None.

(** The body of the loop of [ResolveModuleDeps]: the priority chain for one
    import statement. *)
Definition resolveImport (g : Globals) (c : Config) (ix : RuleIndex)
  (ts : TypeScript) (from : Label) (s : State) (mod_ : ImportStatement) : State :=
  let cfg := Exts c (languageName g) (Pkg from) in
  let imp := {| Lang := languageName g; Imp := Path mod_ |} in
  let s := DEBUG (DebugResolve (Imp imp) (Name from)) s in
  match FindRuleWithOverride c imp (languageName g) with
  | Some override =>
      match overrideDep from override with
      | Some override =>
          let dep := label.String override in
          explain g from mod_ dep ByResolveDirective (Add dep s)
      | None => s
      end
  | None =>
  let matches := FindRulesByImportWithConfig ix c imp (languageName g) in
  if Nat.ltb 0 (length matches) then
    let filteredMatches := filterMatches from matches in
    let s := DEBUG (DebugMatches (Name from) filteredMatches) s in
    match filteredMatches with
    | [] => s
    | [m] =>
        let matchLabel := label.Rel (FLabel m) (Repo from) (Pkg from) in
        let dep := label.String matchLabel in
        explain g from mod_ dep ByIndexedLabels (Add dep s)
    | _ :: _ :: _ =>
        setFatal
          (Printf (AmbiguityError (targetListFromResults filteredMatches)
                     (Path mod_) (SourcePath mod_)) s)
    end
  else
  match GetNamedPackage ts (Path mod_) with
  | Some pkg => explain g from mod_ pkg (ByDeclaredPackage pkg) (Add pkg s)
  | None =>
  match GetImportableFile ts (Path mod_) with
  | Some pkg => explain g from mod_ pkg (ByDeclaredPackage pkg) (Add pkg s)
  | None =>
  match GetNpmPackage cfg (Path mod_) with
  | Some pkg =>
      let s := explain g from mod_ pkg (ByThirdPartyPackage pkg) (Add pkg s) in
      match GetNpmPackage cfg ("@types/" ++ Path mod_) with
      | Some typePkg => Add typePkg s
      | None => s
      end
  | None =>
  match GetNpmPackage cfg ("@types/" ++ Path mod_) with
  | Some typePkg =>
      explain g from mod_ typePkg (ByThirdPartyTypesPackage typePkg) (Add typePkg s)
  | None =>
  if EnvironmentKind_eqb (EnvironmentType cfg) EnvironmentNode
     && isNodeImport g (Path mod_) then
    match GetNpmPackage cfg "@types/node" with
    | Some typePkg => Add typePkg s
    | None => s
    end
  else if ValidateImportStatements cfg then
    setFatal
      (Printf (ValidationError (label.String from) (Path mod_) (SourcePath mod_)
                 (IgnoreImportsDirective g)) s)
  else s
  end end end end end.

(** How a call of [ResolveModuleDeps] ends: [os.Exit(status)], or a return
    with the dependency set. *)
Inductive Outcome :=
| Exit (status : Z)
| Return (deps : TreeSet.t).

(** The state after the loop over the import statements; [modules] lists
    them in the order in which the iterator of the set yields them. *)
Definition resolveLoop (g : Globals) (c : Config) (ix : RuleIndex)
  (ts : TypeScript) (modules : list ImportStatement) (from : Label)
  (s : State) : State :=
  fold_left (resolveImport g c ix ts from) modules s.

(** The end of [ResolveModuleDeps]. *)
Definition finish (s : State) : Outcome :=
  if hasFatalError s then Exit 1 else Return (deps s).

(** [ResolveModuleDeps(c, ix, modules, from)]: how the call ends, with what
    it wrote to the log and to the debug trace. *)
Definition ResolveModuleDeps (g : Globals) (c : Config) (ix : RuleIndex)
  (ts : TypeScript) (modules : list ImportStatement) (from : Label)
  : Outcome * list LogLine * list DebugLine :=
  let s := resolveLoop g c ix ts modules from initial in
  (finish s, log s, debug s).

(** The exit status of a run in which nothing but this call can fail: [0]
    when the call returns. *)
Definition exitStatus (o : Outcome) : Z :=
  match o with
  | Exit status => status
  | Return _ => 0
  end.

#[local] Set Warnings "-register-all".

(** Expressions of the build file ([buildtools/build]) as far as used. *)
Inductive Expr :=
| StringExpr (Value : string)
| ListExpr (List : list Expr).

(** [convertDependencySetToExpr]. *)
Definition convertDependencySetToExpr (set : TreeSet.t) : Expr :=
  ListExpr (map StringExpr (Values set)).

(** The outcome component of a call. *)
Definition outcomeOf (r : Outcome * list LogLine * list DebugLine) : Outcome :=
  fst (fst r).

Definition logOf (r : Outcome * list LogLine * list DebugLine) : list LogLine :=
  snd (fst r).

(** The import specification built for an import statement. *)
Definition importSpec (g : Globals) (mod_ : ImportStatement) : ImportSpec :=
  {| Lang := languageName g; Imp := Path mod_ |}.

(** What a caller can observe of the state: the set, the log and the fatal
    flag, the debug trace left aside. *)
Definition observable (s : State) : TreeSet.t * list LogLine * bool :=
  (deps s, log s, hasFatalError s).

(** The configuration [c] with other per-package configurations. *)
Definition withExts (c : Config) (exts : string -> string -> JsGazelleConfig)
  : Config :=
  {| FindRuleWithOverride := FindRuleWithOverride c; Exts := exts |}.

(** No first-party rule matches the import: no override directive, no index
    match, no named package and no importable file. *)
Definition firstPartyUnmatched (g : Globals) (c : Config) (ix : RuleIndex)
  (ts : TypeScript) (mod_ : ImportStatement) : Prop :=
  FindRuleWithOverride c (importSpec g mod_) (languageName g) = None
  /\ FindRulesByImportWithConfig ix c (importSpec g mod_) (languageName g) = []
  /\ GetNamedPackage ts (Path mod_) = None
  /\ GetImportableFile ts (Path mod_) = None.

(** Neither the import path nor its typed-declarations sibling is a
    registered npm package. *)
Definition thirdPartyUnmatched (cfg : JsGazelleConfig) (mod_ : ImportStatement)
  : Prop :=
  GetNpmPackage cfg (Path mod_) = None
  /\ GetNpmPackage cfg ("@types/" ++ Path mod_) = None.

(** The condition of the native-module rule. *)
Definition isNativeImport (g : Globals) (cfg : JsGazelleConfig)
  (mod_ : ImportStatement) : bool :=
  EnvironmentKind_eqb (EnvironmentType cfg) EnvironmentNode
  && isNodeImport g (Path mod_).

(** ** The rest of the language object *)

(** A rule of a build file ([rule.Rule]) as far as [Resolve] touches it:
    its attributes, read by [r.Attr(key)]. *)
Definition Rule := string -> option Expr.

(** The method [Name()]: the name of the language. ([Name] is taken by the
    field of a label.) *)
Definition LanguageName (g : Globals) : string := languageName g.

(** The method [Embeds(r, from)]: not implemented by the extension, the
    empty slice for every rule. ([Embeds] is taken by the field of a find
    result.) *)
Definition EmbedsOf (r : Rule) (from : Label) : list Label := [].

(** [r.SetAttr(key, value)]: the attribute is created or its value
    replaced. *)
Definition SetAttr (key : string) (value : Expr) (r : Rule) : Rule :=
  fun k => if k =? key then Some value else r k.

(** The debug trace of [Resolve]: the lines of [ResolveModuleDeps], then
    its own line with the name of the target, the imports and the resolved
    dependencies. *)
Inductive ResolveTrace :=
| Traced (line : DebugLine)
| TraceResolved (fromName : string) (modules : list ImportStatement)
    (resolved : list string).

(** How a call of [Resolve] ends: the process exits inside
    [ResolveModuleDeps], or the rule is left with its attributes set. *)
Inductive ResolveOutcome :=
| ResolveExit (status : Z)
| Resolved (r : Rule).

(** [Resolve(c, ix, rc, r, modulesRaw, from)]. The remote cache [rc] is not
    used. *)
Definition Resolve (g : Globals) (c : Config) (ix : RuleIndex) (ts : TypeScript)
  (r : Rule) (modules : list ImportStatement) (from : Label)
  : ResolveOutcome * list LogLine * list ResolveTrace :=
  let cfg := Exts c (languageName g) (Pkg from) in
  match ResolveModuleDeps g c ix ts modules from with
  | (Exit status, logged, traced) => (ResolveExit status, logged, map Traced traced)
  | (Return deps, logged, traced) =>
      let traced :=
        (map Traced traced ++ [TraceResolved (Name from) modules (Values deps)])%list in
      let r :=
        if negb (TreeSet.is_empty deps)
        then SetAttr "deps" (convertDependencySetToExpr deps) r else r in
      let tsconfig := GetTsConfigRule cfg in
      let r :=
        if negb (tsconfig =? "") then SetAttr "tsconfig" (StringExpr tsconfig) r
        else r in
      (Resolved r, logged, traced)
  end.

(** The error lines of the log: ambiguity and validation errors. *)
Definition isErrorLine (line : LogLine) : bool :=
  match line with
  | Explaining _ _ _ _ _ => false
  | AmbiguityError _ _ _ => true
  | ValidationError _ _ _ _ => true
  end.

(** The last byte of [s] occurs in [cutset]. *)
Fixpoint endsInCutset (s cutset : string) : bool :=
  match s with
  | EmptyString => false
  | String c EmptyString => strings.inCutset c cutset
  | String _ rest => endsInCutset rest cutset
  end.

(** Every byte of [s] occurs in [cutset]. *)
Fixpoint allInCutset (s cutset : string) : bool :=
  match s with
  | EmptyString => true
  | String c rest => strings.inCutset c cutset && allInCutset rest cutset
  end.

(** The strings held by a list expression of string literals. *)
Definition stringsOfExpr (e : Expr) : list string :=
  match e with
  | ListExpr items =>
      flat_map (fun item => match item with
                            | StringExpr value => [value]
                            | ListExpr _ => []
                            end) items
  | StringExpr _ => []
  end.

(** ** A concrete workspace, for evaluating the definitions *)

Module Sample.

(** Lookup in a table of key and value pairs, first match. *)
Fixpoint lookup {A : Type} (key : string) (table : list (string * A)) : option A :=
  match table with
  | [] => None
  | (k, v) :: rest => if k =? key then Some v else lookup key rest
  end.

Fixpoint hasSuffix (s suffix : string) : bool :=
  (s =? suffix) ||
  match s with
  | EmptyString => false
  | String _ rest => hasSuffix rest suffix
  end.

(** Modelled from the spec: the helper [stripImportExtensions], declared
    outside [resolve.go]; it strips a known source-file extension, so that
    an import of [x] matches a source file [x.ts]. *)
Definition stripImportExtensions (f : string) : string :=
  match find (fun ext => hasSuffix f ext) [".tsx"; ".ts"; ".jsx"; ".js"] with
  | Some ext => substring 0 (String.length f - String.length ext) f
  | None => f
  end.

(** Modelled from the spec: the helper [isIndexFile], declared outside
    [resolve.go]; the base name of the file, extension-stripped, equals the
    reserved index name. *)
Definition isIndexFile (f : string) : bool :=
  negb (stripImportExtensions f =? f)
  && (stripImportExtensions (path.Base f) =? indexFileName).

(** Modelled from the spec: the helper [isNodeImport], declared outside
    [resolve.go]; it recognises the names of Node built-in modules, of
    which a few are listed. *)
Definition isNodeImport (p : string) : bool :=
  existsb (String.eqb p) ["fs"; "path"; "os"; "http"; "child_process"].

(** [filepath.Rel] restricted to the base directory [.], the workspace
    root: a relative target is its own cleaned path, a rooted one cannot be
    made relative. Other base directories are not used in the examples and
    are reported as errors. *)
Definition relFromRoot (basepath targpath : string) : option string :=
  if path.Clean basepath =? "." then
    if path.isRooted targpath then None else Some (path.Clean targpath)
  else None.

(** The constants and helpers of the package, with the given value of the
    [EXPLAIN_DEPENDENCY] variable. *)
Definition globals (explainTarget : string) : Globals :=
  Build_Globals "js" "js_ignore_imports" stripImportExtensions isIndexFile
    isNodeImport relFromRoot explainTarget.

Definition lbl (repo pkg name : string) : Label :=
  {| Repo := repo; Pkg := pkg; Name := name; Relative := false |}.

Definition packageConfig (npm : list (string * string)) (env : EnvironmentKind)
  (validate : bool) : JsGazelleConfig :=
  {| BaseDir := "."; GetTsConfigRule := "";
     GetNpmPackage := fun name => lookup name npm;
     EnvironmentType := env; ValidateImportStatements := validate |}.

(** A configuration with the given override directives and the same
    package configuration in every package. *)
Definition config (overrides : list (string * Label)) (cfg : JsGazelleConfig)
  : Config :=
  {| FindRuleWithOverride := fun imp _ => lookup (Imp imp) overrides;
     Exts := fun _ _ => cfg |}.

(** An index that knows the given import paths. *)
Definition index (provided : list (string * list FindResult)) : RuleIndex :=
  {| FindRulesByImportWithConfig := fun _ imp _ =>
       match lookup (Imp imp) provided with
       | Some results => results
       | None => []
       end |}.

Definition found (l : Label) : FindResult := {| FLabel := l; Embeds := [] |}.

Definition registries (named files : list (string * string)) : TypeScript :=
  {| GetNamedPackage := fun name => lookup name named;
     GetImportableFile := fun name => lookup name files |}.

Definition import (p source : string) : ImportStatement :=
  {| Path := p; SourcePath := source |}.

(** The requesting target [//app:lib]. *)
Definition from : Label := lbl "" "app" "lib".

(** The npm packages registered in every package of the workspace. *)
Definition npm : list (string * string) :=
  [("foo", "//:node_modules/foo");
   ("@types/foo", "//:node_modules/@types/foo");
   ("@types/bar", "//:node_modules/@types/bar");
   ("react", "//:node_modules/react");
   ("@types/react", "//:node_modules/@types/react");
   ("@types/node", "//:node_modules/@types/node")].

(** The override directives: one to another target, one to the requesting
    target itself, one for an import that is also an npm package. *)
Definition overrides : list (string * Label) :=
  [("shared/api", lbl "" "shared" "api");
   ("app/own", lbl "" "app" "lib");
   ("react", lbl "" "vendor" "react")].

(** The first-party index. *)
Definition provided : list (string * list FindResult) :=
  [("shared/api", [found (lbl "" "other" "api")]);
   ("app/own", [found (lbl "" "app" "other")]);
   ("lib/util", [found (lbl "" "lib" "util")]);
   ("lib/dup", [found (lbl "" "lib" "a"); found from; found (lbl "" "lib" "b")]);
   ("app/main", [found from])].

(** The named packages: the requesting target is registered under the
    name of its own package. *)
Definition named : list (string * string) := [("@corp/lib", "//app:lib")].

Definition workspace (validate : bool) : Config :=
  config overrides (packageConfig npm EnvironmentNode validate).

Definition ix : RuleIndex := index provided.

Definition ts : TypeScript := registries named [].

(** The call on the workspace, no dependency being explained. *)
Definition resolve (validate : bool) (modules : list ImportStatement) :=
  ResolveModuleDeps (globals "") (workspace validate) ix ts modules from.

(** A second index, in which the requesting target provides an import path
    together with one other target. *)
Definition ix2 : RuleIndex :=
  index [("app/helper", [found from; found (lbl "" "app" "helper")])].

(** The workspace in a package whose environment type is not Node. *)
Definition browserWorkspace (validate : bool) : Config :=
  config overrides (packageConfig npm EnvironmentOther validate).

(** The workspace with a shared compiler-configuration target. *)
Definition tsconfigWorkspace : Config :=
  config overrides
    {| BaseDir := "."; GetTsConfigRule := "//:tsconfig";
       GetNpmPackage := fun name => lookup name npm;
       EnvironmentType := EnvironmentNode; ValidateImportStatements := true |}.

(** The rule of the requesting target before resolution, with a [deps]
    attribute left from an earlier run. *)
Definition rule : Rule :=
  fun key =>
    if key =? "name" then Some (StringExpr "lib")
    else if key =? "deps" then Some (ListExpr [StringExpr "//old:dep"])
    else None.

(** [filepath.Rel] restricted to the base directory [src] and targets
    below it, for which the answer is the rest of the path; everything else
    is left to [relFromRoot]. *)
Definition relFromSrc (basepath targpath : string) : option string :=
  if (path.Clean basepath =? "src") && String.prefix "src/" (path.Clean targpath)
  then Some (substring 4 (String.length (path.Clean targpath) - 4)
               (path.Clean targpath))
  else relFromRoot basepath targpath.

(** The package helpers with [relFromSrc], and a workspace whose compiler
    base directory is [src]. *)
Definition srcGlobals : Globals :=
  Build_Globals "js" "js_ignore_imports" stripImportExtensions isIndexFile
    isNodeImport relFromSrc "".

Definition srcWorkspace : Config :=
  config overrides
    {| BaseDir := "src"; GetTsConfigRule := "";
       GetNpmPackage := fun name => lookup name npm;
       EnvironmentType := EnvironmentNode; ValidateImportStatements := true |}.

(** A workspace whose one override directive names the requesting target
    with the root marker of the main repository, [@//app:lib]. *)
Definition rootSpelledWorkspace : Config :=
  config [("app/self", lbl "@" "app" "lib")]
    (packageConfig npm EnvironmentNode true).

End Sample.

(** * Properties *)

Local Open Scope list_scope.

(** ** The state operations *)

Section StateOps.

Context (g : Globals) (from : Label) (mod_ : ImportStatement).

Lemma deps_explain dep how s :
  deps (explain g from mod_ dep how s) = deps s.
Proof. unfold explain. destruct (_ =? _); reflexivity. Qed.

Lemma fatal_explain dep how s :
  hasFatalError (explain g from mod_ dep how s) = hasFatalError s.
Proof. unfold explain. destruct (_ =? _); reflexivity. Qed.

Lemma log_explain_other dep how s :
  (EXPLAIN_DEPENDENCY g =? dep) = false ->
  log (explain g from mod_ dep how s) = log s.
Proof. unfold explain. intros ->. reflexivity. Qed.

Lemma log_explain_target dep how s :
  (EXPLAIN_DEPENDENCY g =? dep) = true ->
  log (explain g from mod_ dep how s)
  = log s ++ [Explaining dep (label.String from) (SourcePath mod_) (Path mod_) how].
Proof.
  unfold explain. intros H. rewrite H. apply String.eqb_eq in H. now subst dep.
Qed.

End StateOps.

(** ** What one import contributes, whatever the state *)

(** Splits the priority chain of [resolveImport] into its branches. *)
Ltac chain :=
  repeat match goal with
    | |- context [match ?x with _ => _ end] =>
        match x with
        | context [explain] => fail 1
        | _ => destruct x eqn:?
        end
    end.

Section Contribution.

Context (g : Globals) (c : Config) (ix : RuleIndex) (ts : TypeScript)
  (from : Label).

Local Abbreviation step := (resolveImport g c ix ts from).
Local Abbreviation loop modules s := (resolveLoop g c ix ts modules from s).

(** The dependency set after an import is the set before it together with
    what the import adds to an empty set. *)
Lemma step_deps s mod_ :
  TreeSet.Equal (deps (step s mod_))
    (TreeSet.union (deps s) (deps (step initial mod_))).
Proof.
  unfold resolveImport. chain; cbn [deps DEBUG Add setFatal Printf initial];
    rewrite ?deps_explain; cbn [deps DEBUG Add setFatal Printf initial];
    rewrite ?deps_explain; cbn [deps DEBUG Add setFatal Printf initial];
    TreeSetDec.fsetdec.
Qed.

(** The fatal flag is only ever raised. *)
Lemma step_fatal s mod_ :
  hasFatalError (step s mod_)
  = hasFatalError s || hasFatalError (step initial mod_).
Proof.
  unfold resolveImport.
  chain; cbn [hasFatalError DEBUG Add setFatal Printf initial];
    rewrite ?fatal_explain; cbn [hasFatalError DEBUG Add setFatal Printf initial];
    rewrite ?fatal_explain; cbn [hasFatalError DEBUG Add setFatal Printf initial];
    rewrite ?orb_false_r, ?orb_true_r; reflexivity.
Qed.

Lemma loop_app pre post s :
  loop (pre ++ post)%list s = loop post (loop pre s).
Proof. unfold resolveLoop. apply fold_left_app. Qed.

Lemma loop_cons mod_ post s :
  loop (mod_ :: post) s = loop post (step s mod_).
Proof. reflexivity. Qed.

(** Membership in the final set: already there, or added by some import. *)
Lemma loop_deps modules : forall s x,
  TreeSet.In x (deps (loop modules s)) <->
  TreeSet.In x (deps s) \/
  exists mod_, In mod_ modules /\ TreeSet.In x (deps (step initial mod_)).
Proof.
  induction modules as [|m rest IH]; intros s x.
  - cbn. split; [now left | intros [H | (m & [] & _)]; exact H].
  - rewrite loop_cons, IH, (step_deps s m x), TreeSet.union_spec. split.
    + intros [[H | H] | (m' & Hin & H)].
      * now left.
      * right. exists m. split; [now left | exact H].
      * right. exists m'. split; [now right | exact H].
    + intros [H | (m' & [-> | Hin] & H)].
      * left. now left.
      * left. now right.
      * right. now exists m'.
Qed.

Lemma loop_fatal modules : forall s,
  hasFatalError (loop modules s)
  = hasFatalError s
    || existsb (fun m => hasFatalError (step initial m)) modules.
Proof.
  induction modules as [|m rest IH]; intros s.
  - cbn. now rewrite orb_false_r.
  - rewrite loop_cons, IH, step_fatal. cbn [existsb]. now rewrite orb_assoc.
Qed.

(** Dependencies are never removed. *)
Lemma loop_keeps modules s x :
  TreeSet.In x (deps s) -> TreeSet.In x (deps (loop modules s)).
Proof. intros H. apply loop_deps. now left. Qed.

(** Once raised, the fatal flag stays. *)
Lemma loop_stays_fatal modules s :
  hasFatalError s = true -> hasFatalError (loop modules s) = true.
Proof. intros H. now rewrite loop_fatal, H. Qed.

(** Log lines are never taken back. *)
Lemma step_log_grows s mod_ : exists added, log (step s mod_) = (log s ++ added)%list.
Proof.
  unfold resolveImport.
  chain; cbn [log DEBUG Add setFatal Printf initial]; unfold explain;
    repeat match goal with |- context [if ?b then _ else _] => destruct b end;
    cbn [log DEBUG Add setFatal Printf initial];
    solve [ exists []; now rewrite app_nil_r | eexists; reflexivity ].
Qed.

Lemma loop_log_grows modules : forall s,
  exists added, log (loop modules s) = (log s ++ added)%list.
Proof.
  induction modules as [|m rest IH]; intros s.
  - exists []. cbn. now rewrite app_nil_r.
  - rewrite loop_cons. destruct (IH (step s m)) as [a2 ->].
    destruct (step_log_grows s m) as [a1 ->].
    exists (a1 ++ a2)%list. now rewrite app_assoc.
Qed.

(** A dependency in the set after some import is in the returned set. *)
Lemma returned_keeps pre mod_ post x d :
  (forall s, TreeSet.In x (deps (step s mod_))) ->
  outcomeOf (ResolveModuleDeps g c ix ts (pre ++ mod_ :: post) from) = Return d ->
  TreeSet.In x d.
Proof.
  intros Hin. unfold ResolveModuleDeps, outcomeOf, finish. cbn [fst].
  destruct (hasFatalError _); intros [= <-].
  fold (loop (pre ++ mod_ :: post) initial). rewrite loop_app, loop_cons.
  apply loop_keeps, Hin.
Qed.

End Contribution.

(** ** The iteration order of the dependency set *)

Lemma Values_In (d : TreeSet.t) (x : string) :
  In x (Values d) <-> TreeSet.In x d.
Proof.
  unfold Values. rewrite <- TreeSet.elements_spec1. split.
  - intros H. apply In_InA; [typeclasses eauto | exact H].
  - intros H. apply InA_alt in H. destruct H as (y & -> & Hy). exact Hy.
Qed.

Lemma Values_sorted (d : TreeSet.t) :
  StronglySorted String_as_OT.lt (Values d).
Proof.
  apply Sorted_StronglySorted.
  - exact (@StrictOrder_Transitive _ _ String_as_OT.lt_strorder).
  - apply TreeSet.elements_spec2.
Qed.

Lemma Values_NoDup (d : TreeSet.t) : NoDup (Values d).
Proof.
  pose proof (TreeSet.elements_spec2w d) as H. unfold Values.
  induction H as [|x l Hx _ IH]; constructor; [|exact IH].
  intros Hin. apply Hx. apply In_InA; [typeclasses eauto | exact Hin].
Qed.

Lemma eqlistA_eq_leibniz (A : Type) (l l' : list A) :
  eqlistA eq l l' -> l = l'.
Proof. induction 1; congruence. Qed.

(** Two sets with the same members are iterated identically, however their
    trees were built. *)
Lemma Values_ext (d1 d2 : TreeSet.t) :
  TreeSet.Equal d1 d2 -> Values d1 = Values d2.
Proof.
  intros Heq. apply eqlistA_eq_leibniz.
  apply SortA_equivlistA_eqlistA with (ltA := String_as_OT.lt).
  - typeclasses eauto.
  - exact String_as_OT.lt_strorder.
  - typeclasses eauto.
  - apply TreeSet.elements_spec2.
  - apply TreeSet.elements_spec2.
  - intros x. unfold Values. rewrite !TreeSet.elements_spec1. apply Heq.
Qed.

(** ** Order independence and sorted output *)

Section Ordering.

Context (g : Globals) (c : Config) (ix : RuleIndex) (ts : TypeScript)
  (from : Label).

Lemma loop_same_imports modules1 modules2 :
  (forall m, In m modules1 <-> In m modules2) ->
  TreeSet.Equal (deps (resolveLoop g c ix ts modules1 from initial))
                (deps (resolveLoop g c ix ts modules2 from initial))
  /\ hasFatalError (resolveLoop g c ix ts modules1 from initial)
     = hasFatalError (resolveLoop g c ix ts modules2 from initial).
Proof.
  intros Hsame. split.
  - intros x. rewrite !loop_deps. split;
      (intros [H | (m & Hin & H)]; [now left | right; exists m; split;
        [now apply Hsame | exact H]]).
  - rewrite !loop_fatal. f_equal. apply eq_true_iff_eq.
    rewrite !existsb_exists. split;
      intros (m & Hin & H); exists m; (split; [now apply Hsame | exact H]).
Qed.

(** C6. Two collections holding the same import statements, in whatever
    order, end the call the same way: the same exit, or dependency sets
    with the same members and hence the same serialised expression; and
    the serialised expression lists the members of the set in strictly
    increasing byte-wise lexicographic order, so sorted and without
    duplicates, whatever the order in which they were added. *)
Theorem C6_order_independent_sorted_output modules1 modules2 :
  (forall m, In m modules1 <-> In m modules2) ->
  let o1 := outcomeOf (ResolveModuleDeps g c ix ts modules1 from) in
  let o2 := outcomeOf (ResolveModuleDeps g c ix ts modules2 from) in
  exitStatus o1 = exitStatus o2
  /\ match o1, o2 with
     | Return d1, Return d2 =>
         TreeSet.Equal d1 d2
         /\ convertDependencySetToExpr d1 = convertDependencySetToExpr d2
     | Exit _, Exit _ => True
     | _, _ => False
     end
  /\ forall d, o1 = Return d ->
       exists l, convertDependencySetToExpr d = ListExpr (map StringExpr l)
                 /\ StronglySorted String_as_OT.lt l
                 /\ NoDup l
                 /\ forall x, In x l <-> TreeSet.In x d.
Proof.
  intros Hsame. destruct (loop_same_imports _ _ Hsame) as [Hdeps Hfatal].
  cbv zeta. unfold ResolveModuleDeps, outcomeOf, finish. cbn [fst].
  rewrite Hfatal.
  destruct (hasFatalError (resolveLoop g c ix ts modules2 from initial)).
  - repeat split; try reflexivity. intros d [=].
  - repeat split; try reflexivity.
    + apply Hdeps.
    + apply Hdeps.
    + unfold convertDependencySetToExpr. now rewrite (Values_ext _ _ Hdeps).
    + intros d [= <-]. exists (Values (deps (resolveLoop g c ix ts modules1 from initial))).
      repeat split.
      * apply Values_sorted.
      * apply Values_NoDup.
      * apply Values_In.
      * apply Values_In.
Qed.

End Ordering.

(** ** Rule 1: the override directive *)

Section Override.

Context (g : Globals) (c : Config) (ix : RuleIndex) (ts : TypeScript)
  (from : Label).

Local Abbreviation step := (resolveImport g c ix ts from).

Lemma overrideDep_spec o :
  overrideDep from o
  = if label.Equal (defaultRepo from o) from then None
    else Some (dropOwnRepo from (defaultRepo from o)).
Proof. unfold overrideDep. destruct (label.Equal _ from); reflexivity. Qed.

(** What the loop body does when an override directive exists. *)
Lemma override_step mod_ o s :
  FindRuleWithOverride c (importSpec g mod_) (languageName g) = Some o ->
  step s mod_
  = let s := DEBUG (DebugResolve (Path mod_) (Name from)) s in
    match overrideDep from o with
    | Some l => explain g from mod_ (label.String l) ByResolveDirective
                  (Add (label.String l) s)
    | None => s
    end.
Proof. intros Ho. unfold resolveImport, importSpec in *. now rewrite Ho. Qed.

(** C1, amended. When an override directive exists for an import, the
    override rule alone decides: the index, the registries and the
    per-package configuration are not consulted, whatever they hold. Unless
    the override, its repository defaulted to the requester's, is the
    requesting target, its rendered label is added to the dependency set
    and is in the set the call returns; if it is the requesting target,
    nothing is added. No error is raised in either case. *)
Theorem C1_override_first mod_ o :
  FindRuleWithOverride c (importSpec g mod_) (languageName g) = Some o ->
  let rendered := label.String (dropOwnRepo from (defaultRepo from o)) in
  (forall ix' ts' exts' s,
      resolveImport g (withExts c exts') ix' ts' from s mod_ = step s mod_)
  /\ (label.Equal (defaultRepo from o) from = false ->
      (forall s,
         deps (step s mod_) = TreeSet.add rendered (deps s)
         /\ hasFatalError (step s mod_) = hasFatalError s)
      /\ forall pre post d,
           outcomeOf (ResolveModuleDeps g c ix ts (pre ++ mod_ :: post) from)
           = Return d ->
           TreeSet.In rendered d)
  /\ (label.Equal (defaultRepo from o) from = true ->
      forall s, observable (step s mod_) = observable s).
Proof.
  intros Ho rendered. split; [|split].
  - intros ix' ts' exts' s. rewrite (override_step mod_ o s Ho).
    unfold resolveImport, withExts, importSpec in *. cbn [FindRuleWithOverride].
    rewrite Ho. reflexivity.
  - intros Hother.
    assert (Hstep : forall s,
      deps (step s mod_) = TreeSet.add rendered (deps s)
      /\ hasFatalError (step s mod_) = hasFatalError s).
    { intros s. rewrite (override_step mod_ o s Ho), overrideDep_spec, Hother.
      rewrite deps_explain, fatal_explain. now split. }
    split; [exact Hstep|]. intros pre post d Hret.
    apply (returned_keeps g c ix ts from pre mod_ post rendered d); [|exact Hret].
    intros s. destruct (Hstep s) as [-> _]. apply TreeSet.add_spec. now left.
  - intros Hself s. rewrite (override_step mod_ o s Ho), overrideDep_spec, Hself.
    reflexivity.
Qed.

End Override.

(** ** Joined strings *)

Lemma append_assoc (a b d : string) : ((a ++ b) ++ d = a ++ (b ++ d))%string.
Proof. induction a as [|x a IH]; cbn; [reflexivity | now rewrite IH]. Qed.

Lemma append_nil_r (a : string) : (a ++ "" = a)%string.
Proof. induction a as [|x a IH]; cbn; [reflexivity | now rewrite IH]. Qed.

(** Every element of a joined list occurs in the joined string. *)
Lemma Join_occurs (sep : string) (elems : list string) (x : string) :
  In x elems -> strings.occurs_in x (strings.Join elems sep).
Proof.
  unfold strings.Join, strings.occurs_in.
  induction elems as [|e rest IH]; intros Hin; [destruct Hin|].
  destruct Hin as [-> | Hin].
  - exists ""%string. destruct rest as [|e' rest'].
    + exists ""%string. cbn. now rewrite append_nil_r.
    + exists (sep ++ String.concat sep (e' :: rest'))%string. reflexivity.
  - destruct (IH Hin) as (before & after & Heq).
    destruct rest as [|e' rest']; [destruct Hin|].
    exists (e ++ sep ++ before)%string, after.
    change (String.concat sep (e :: e' :: rest'))
      with (e ++ sep ++ String.concat sep (e' :: rest'))%string.
    rewrite Heq. now rewrite !append_assoc.
Qed.

(** ** Rule 2: the first-party index *)

Section Index.

Context (g : Globals) (c : Config) (ix : RuleIndex) (ts : TypeScript)
  (from : Label).

Local Abbreviation step := (resolveImport g c ix ts from).
Local Abbreviation loop modules s := (resolveLoop g c ix ts modules from s).
Local Abbreviation override mod_ :=
  (FindRuleWithOverride c (importSpec g mod_) (languageName g)).
Local Abbreviation matches mod_ :=
  (FindRulesByImportWithConfig ix c (importSpec g mod_) (languageName g)).

Lemma length_pos (A : Type) (l : list A) :
  l <> [] -> Nat.ltb 0 (length l) = true.
Proof. destruct l; [congruence | reflexivity]. Qed.

Lemma filterMatches_In m ms :
  In m (filterMatches from ms) <-> In m ms /\ IsSelfImport m from = false.
Proof.
  unfold filterMatches. rewrite filter_In, negb_true_iff. reflexivity.
Qed.

Lemma not_self_not_equal m :
  IsSelfImport m from = false -> label.Equal from (FLabel m) = false.
Proof. unfold IsSelfImport. intros H. now apply orb_false_iff in H. Qed.

(** C3. An import with no override directive whose index lookup leaves more
    than one candidate once the requesting target is excluded: it adds no
    dependency, logs one ambiguity error whose target list names every
    candidate label, and raises the fatal flag; the imports after it are
    still processed, their dependencies reaching the set; and the call
    ends the process with status 1. *)
Theorem C3_ambiguity_is_fatal pre mod_ post :
  override mod_ = None ->
  1 < length (filterMatches from (matches mod_)) ->
  let candidates := filterMatches from (matches mod_) in
  let line := AmbiguityError (targetListFromResults candidates) (Path mod_)
                (SourcePath mod_) in
  (forall s, deps (step s mod_) = deps s
             /\ log (step s mod_) = log s ++ [line]
             /\ hasFatalError (step s mod_) = true)
  /\ (forall m, In m candidates ->
        strings.occurs_in (label.String (FLabel m)) (targetListFromResults candidates))
  /\ (forall s, loop (pre ++ mod_ :: post) s = loop post (step (loop pre s) mod_))
  /\ (forall later x, In later post ->
        TreeSet.In x (deps (step initial later)) ->
        TreeSet.In x (deps (loop (pre ++ mod_ :: post) initial)))
  /\ In line (logOf (ResolveModuleDeps g c ix ts (pre ++ mod_ :: post) from))
  /\ outcomeOf (ResolveModuleDeps g c ix ts (pre ++ mod_ :: post) from) = Exit 1
  /\ exitStatus (outcomeOf (ResolveModuleDeps g c ix ts (pre ++ mod_ :: post) from)) = 1%Z.
Proof.
  intros Hover Hmany candidates line.
  assert (Hstep : forall s, deps (step s mod_) = deps s
             /\ log (step s mod_) = log s ++ [line]
             /\ hasFatalError (step s mod_) = true).
  { intros s. unfold resolveImport. unfold importSpec in *. rewrite Hover.
    subst line candidates.
    destruct (FindRulesByImportWithConfig ix c _ _) as [|m0 ms] eqn:Hm;
      [cbn in Hmany; lia|].
    cbn [length Nat.ltb Nat.leb].
    destruct (filterMatches from (m0 :: ms)) as [|a [|b rest]] eqn:Hf;
      cbn in Hmany; try lia.
    repeat split. }
  assert (Hfatal : hasFatalError (loop (pre ++ mod_ :: post) initial) = true).
  { rewrite loop_app, loop_cons. apply loop_stays_fatal. apply Hstep. }
  split; [exact Hstep|]. split.
  { intros m Hin. unfold targetListFromResults.
    apply Join_occurs. now apply in_map with (f := fun r => label.String (FLabel r)). }
  split. { intros s. now rewrite loop_app, loop_cons. }
  split. { intros later x Hin Hx. apply loop_deps. right. exists later.
           split; [|exact Hx]. apply in_or_app. right. now right. }
  split.
  { unfold ResolveModuleDeps, logOf. cbn [fst snd].
    rewrite loop_app, loop_cons.
    destruct (loop_log_grows g c ix ts from post (step (loop pre initial) mod_))
      as [added ->].
    destruct (Hstep (loop pre initial)) as (_ & -> & _).
    apply in_or_app. left. apply in_or_app. right. now left. }
  unfold ResolveModuleDeps, outcomeOf, finish. cbn [fst].
  fold (loop (pre ++ mod_ :: post) initial). rewrite Hfatal. split; reflexivity.
Qed.

End Index.

(** ** Self-references *)

Section SelfReference.

Context (g : Globals) (c : Config) (ix : RuleIndex) (ts : TypeScript)
  (from : Label).

Local Abbreviation step := (resolveImport g c ix ts from).
Local Abbreviation override mod_ :=
  (FindRuleWithOverride c (importSpec g mod_) (languageName g)).
Local Abbreviation matches mod_ :=
  (FindRulesByImportWithConfig ix c (importSpec g mod_) (languageName g)).

Lemma filterMatches_all_self ms :
  (forall m, In m ms -> label.Equal from (FLabel m) = true) ->
  filterMatches from ms = [].
Proof.
  intros Hall. unfold filterMatches.
  induction ms as [|m ms IH]; [reflexivity|]. cbn [filter].
  unfold IsSelfImport at 1. rewrite (Hall m (or_introl eq_refl)). cbn.
  apply IH. intros m' Hin. apply Hall. now right.
Qed.

(** C10. An import with no override directive whose index lookup returns
    matches that are all the requesting target: nothing is added, nothing
    is logged and the fatal flag is untouched; the outcome is the same
    whatever the registries, the package configuration (its validation
    flag included) and the other helpers hold, so no later rule is
    consulted; resolved alone, the import makes the call return the empty
    set. *)
Theorem C10_only_self_matches_end_the_chain mod_ :
  override mod_ = None ->
  matches mod_ <> [] ->
  (forall m, In m (matches mod_) -> label.Equal from (FLabel m) = true) ->
  (forall s, observable (step s mod_) = observable s)
  /\ (forall g' ts' exts' s,
        languageName g' = languageName g ->
        FindRulesByImportWithConfig ix (withExts c exts') (importSpec g mod_)
          (languageName g) = matches mod_ ->
        resolveImport g' (withExts c exts') ix ts' from s mod_ = step s mod_)
  /\ (exists d, outcomeOf (ResolveModuleDeps g c ix ts [mod_] from) = Return d
                /\ Values d = [])
  /\ logOf (ResolveModuleDeps g c ix ts [mod_] from) = [].
Proof.
  intros Hover Hsome Hself. unfold importSpec in *.
  pose proof (length_pos _ _ Hsome) as Hlen.
  pose proof (filterMatches_all_self _ Hself) as Hnone.
  assert (Hstep : forall s, step s mod_
            = DEBUG (DebugMatches (Name from) [])
                (DEBUG (DebugResolve (Path mod_) (Name from)) s)).
  { intros s. unfold resolveImport. now rewrite Hover, Hlen, Hnone. }
  split; [|split; [|split]].
  - intros s. now rewrite Hstep.
  - intros g' ts' exts' s Hlang Hix. rewrite Hstep.
    unfold resolveImport, withExts in *. cbn [FindRuleWithOverride] in *.
    rewrite Hlang, Hover, Hix, Hlen, Hnone. reflexivity.
  - unfold ResolveModuleDeps, resolveLoop, outcomeOf. cbn [fold_left fst].
    rewrite Hstep. eexists. split; reflexivity.
  - unfold ResolveModuleDeps, resolveLoop, logOf. cbn [fold_left fst snd].
    now rewrite Hstep.
Qed.

(** C2 where the code lets the requesting target into its own set. The
    guard of the override rule compares labels field by field, so an
    override that names the requesting target of the main repository with
    the root marker [@] (as in [@//pkg:name]) is not recognised as the
    requester: it is not skipped, its repository is not dropped, and the
    string [@] followed by the requester's own label enters the dependency
    set and the set the call returns. The named-package rule has no guard
    at all: a registered string that is the requester's label is added as
    it is. *)
Theorem C2_requester_enters_its_own_set mod_ :
  (forall o,
     override mod_ = Some o ->
     Repo from = "" -> Relative from = false ->
     o = {| Repo := "@"; Pkg := Pkg from; Name := Name from; Relative := false |} ->
     label.Equal (defaultRepo from o) from = false
     /\ (forall s,
           deps (step s mod_)
           = TreeSet.add ("@" ++ label.String from)%string (deps s))
     /\ forall pre post d,
          outcomeOf (ResolveModuleDeps g c ix ts (pre ++ mod_ :: post) from)
          = Return d ->
          TreeSet.In ("@" ++ label.String from)%string d)
  /\ (override mod_ = None -> matches mod_ = [] ->
      GetNamedPackage ts (Path mod_) = Some (label.String from) ->
      (forall s, deps (step s mod_) = TreeSet.add (label.String from) (deps s))
      /\ forall pre post d,
           outcomeOf (ResolveModuleDeps g c ix ts (pre ++ mod_ :: post) from)
           = Return d ->
           TreeSet.In (label.String from) d).
Proof.
  split.
  - intros o Ho Hrepo Hrel ->.
    assert (Hguard : label.Equal
                       (defaultRepo from
                          {| Repo := "@"; Pkg := Pkg from; Name := Name from;
                             Relative := false |}) from = false).
    { unfold defaultRepo, label.Equal. cbn. now rewrite Hrepo. }
    assert (Hstep : forall s,
              deps (step s mod_)
              = TreeSet.add ("@" ++ label.String from)%string (deps s)).
    { intros s. rewrite (override_step g c ix ts from mod_ _ s Ho).
      rewrite overrideDep_spec, Hguard. cbv zeta. rewrite deps_explain.
      cbn [deps Add DEBUG]. f_equal.
      unfold dropOwnRepo, defaultRepo, label.String. cbn. rewrite Hrepo, Hrel. cbn.
      destruct (path.Base (Pkg from) =? Name from); reflexivity. }
    split; [exact Hguard|]. split; [exact Hstep|].
    intros pre post d Hret.
    apply (returned_keeps g c ix ts from pre mod_ post _ d); [|exact Hret].
    intros s. rewrite Hstep. apply TreeSet.add_spec. now left.
  - intros Hover Hnone Hnamed. unfold importSpec in *.
    assert (Hstep : forall s,
              deps (step s mod_) = TreeSet.add (label.String from) (deps s)).
    { intros s. unfold resolveImport. rewrite Hover, Hnone, Hnamed.
      cbn [length Nat.ltb Nat.leb]. now rewrite deps_explain. }
    split; [exact Hstep|]. intros pre post d Hret.
    apply (returned_keeps g c ix ts from pre mod_ post _ d); [|exact Hret].
    intros s. rewrite Hstep. apply TreeSet.add_spec. now left.
Qed.

End SelfReference.

(** ** Rules 3 to 8: the registries, the native modules, validation *)

Section Registries.

Context (g : Globals) (c : Config) (ix : RuleIndex) (ts : TypeScript)
  (from : Label).

Local Abbreviation step := (resolveImport g c ix ts from).
Local Abbreviation loop modules s := (resolveLoop g c ix ts modules from s).
Local Abbreviation cfg := (Exts c (languageName g) (Pkg from)).
Local Abbreviation resolve modules := (ResolveModuleDeps g c ix ts modules from).

(** What the loop body does once the first-party rules have not matched. *)
Lemma third_party_step mod_ s :
  firstPartyUnmatched g c ix ts mod_ ->
  step s mod_
  = let s := DEBUG (DebugResolve (Path mod_) (Name from)) s in
    match GetNpmPackage cfg (Path mod_) with
    | Some pkg =>
        let s := explain g from mod_ pkg (ByThirdPartyPackage pkg) (Add pkg s) in
        match GetNpmPackage cfg ("@types/" ++ Path mod_) with
        | Some typePkg => Add typePkg s
        | None => s
        end
    | None =>
        match GetNpmPackage cfg ("@types/" ++ Path mod_) with
        | Some typePkg =>
            explain g from mod_ typePkg (ByThirdPartyTypesPackage typePkg)
              (Add typePkg s)
        | None =>
            if isNativeImport g cfg mod_ then
              match GetNpmPackage cfg "@types/node" with
              | Some typePkg => Add typePkg s
              | None => s
              end
            else if ValidateImportStatements cfg then
              setFatal
                (Printf (ValidationError (label.String from) (Path mod_)
                           (SourcePath mod_) (IgnoreImportsDirective g)) s)
            else s
        end
    end.
Proof.
  intros (Hover & Hix & Hnamed & Hfile). unfold importSpec in *.
  unfold resolveImport, isNativeImport. rewrite Hover, Hix, Hnamed, Hfile.
  reflexivity.
Qed.

(** The loop body reads the state only to extend it. *)
Lemma step_observable s1 s2 mod_ :
  observable s1 = observable s2 ->
  observable (step s1 mod_) = observable (step s2 mod_).
Proof.
  destruct s1 as [d1 f1 l1 t1], s2 as [d2 f2 l2 t2]. unfold observable.
  cbn [deps log hasFatalError]. intros [= -> -> ->].
  unfold resolveImport. chain; unfold explain;
    repeat match goal with |- context [if ?b then _ else _] => destruct b end;
    reflexivity.
Qed.

Lemma loop_observable modules : forall s1 s2,
  observable s1 = observable s2 ->
  observable (loop modules s1) = observable (loop modules s2).
Proof.
  induction modules as [|m rest IH]; intros s1 s2 H; [exact H|].
  rewrite !loop_cons. apply IH. now apply step_observable.
Qed.

Lemma finish_observable s1 s2 :
  observable s1 = observable s2 ->
  finish s1 = finish s2 /\ log s1 = log s2.
Proof. unfold observable, finish. intros [= -> -> ->]. now split. Qed.

(** C4. An import that no rule matches. With the validation flag of the
    owning package enabled it adds nothing, logs one unresolved-import
    error citing the requesting target, the import path and the source
    file, and raises the fatal flag, so that the call ends the process
    with status 1 once the list is processed. With the flag disabled it
    changes neither the set, nor the log, nor the fatal flag: the call ends
    as it would without that import, and on that import alone it returns
    the empty set with nothing logged (status 0). *)
Theorem C4_unresolved_import_validation mod_ :
  firstPartyUnmatched g c ix ts mod_ ->
  thirdPartyUnmatched cfg mod_ ->
  isNativeImport g cfg mod_ = false ->
  let line := ValidationError (label.String from) (Path mod_) (SourcePath mod_)
                (IgnoreImportsDirective g) in
  (ValidateImportStatements cfg = true ->
     (forall s, deps (step s mod_) = deps s
                /\ log (step s mod_) = log s ++ [line]
                /\ hasFatalError (step s mod_) = true)
     /\ forall pre post,
          In line (logOf (resolve (pre ++ mod_ :: post)))
          /\ outcomeOf (resolve (pre ++ mod_ :: post)) = Exit 1
          /\ exitStatus (outcomeOf (resolve (pre ++ mod_ :: post))) = 1%Z)
  /\ (ValidateImportStatements cfg = false ->
     (forall s, observable (step s mod_) = observable s)
     /\ (forall pre post,
          outcomeOf (resolve (pre ++ mod_ :: post)) = outcomeOf (resolve (pre ++ post))
          /\ logOf (resolve (pre ++ mod_ :: post)) = logOf (resolve (pre ++ post)))
     /\ (exists d, outcomeOf (resolve [mod_]) = Return d /\ Values d = [])
     /\ exitStatus (outcomeOf (resolve [mod_])) = 0%Z
     /\ logOf (resolve [mod_]) = []).
Proof.
  intros Hfirst [Hnpm Htypes] Hnative line. split; intros Hval.
  - assert (Hstep : forall s, deps (step s mod_) = deps s
                /\ log (step s mod_) = log s ++ [line]
                /\ hasFatalError (step s mod_) = true).
    { intros s. rewrite (third_party_step mod_ s Hfirst).
      cbv zeta. rewrite Hnpm, Htypes, Hnative, Hval. repeat split. }
    split; [exact Hstep|]. intros pre post.
    assert (Hfatal : hasFatalError (loop (pre ++ mod_ :: post) initial) = true).
    { rewrite loop_app, loop_cons. apply loop_stays_fatal. apply Hstep. }
    split.
    + unfold ResolveModuleDeps, logOf. cbn [fst snd]. rewrite loop_app, loop_cons.
      destruct (loop_log_grows g c ix ts from post (step (loop pre initial) mod_))
        as [added ->].
      destruct (Hstep (loop pre initial)) as (_ & -> & _).
      apply in_or_app. left. apply in_or_app. right. now left.
    + unfold ResolveModuleDeps, outcomeOf, finish. cbn [fst].
      fold (loop (pre ++ mod_ :: post) initial). rewrite Hfatal. now split.
  - assert (Hstep : forall s, observable (step s mod_) = observable s).
    { intros s. rewrite (third_party_step mod_ s Hfirst).
      cbv zeta. rewrite Hnpm, Htypes, Hnative, Hval. reflexivity. }
    split; [exact Hstep|]. split.
    + intros pre post.
      assert (Hobs : observable (loop (pre ++ mod_ :: post) initial)
                     = observable (loop (pre ++ post) initial)).
      { rewrite !loop_app, loop_cons. apply loop_observable, Hstep. }
      apply finish_observable in Hobs. exact Hobs.
    + pose proof (Hstep initial) as Hobs. apply finish_observable in Hobs.
      destruct Hobs as [Hfin Hlog].
      unfold ResolveModuleDeps, resolveLoop, outcomeOf, logOf.
      cbn [fold_left fst snd]. rewrite Hfin, Hlog. cbn.
      split; [eexists; split; reflexivity | split; reflexivity].
Qed.

End Registries.

Section ThirdParty.

Context (g : Globals) (c : Config) (ix : RuleIndex) (ts : TypeScript)
  (from : Label).

Local Abbreviation step := (resolveImport g c ix ts from).
Local Abbreviation loop modules s := (resolveLoop g c ix ts modules from s).
Local Abbreviation cfg := (Exts c (languageName g) (Pkg from)).
Local Abbreviation resolve modules := (ResolveModuleDeps g c ix ts modules from).

(** C5, amended. An import that no first-party rule matches (no override
    directive, no index match, no named package, no importable file): when
    its path and the same path under [@types/] are both registered npm
    packages, both registered strings are added, and both are in the set
    the call returns; when only the [@types/] package is registered,
    exactly that one is added. *)
Theorem C5_typed_package_augmentation mod_ :
  firstPartyUnmatched g c ix ts mod_ ->
  (forall pkg typePkg,
     GetNpmPackage cfg (Path mod_) = Some pkg ->
     GetNpmPackage cfg ("@types/" ++ Path mod_) = Some typePkg ->
     (forall s, deps (step s mod_) = TreeSet.add typePkg (TreeSet.add pkg (deps s))
                /\ hasFatalError (step s mod_) = hasFatalError s)
     /\ forall pre post d,
          outcomeOf (resolve (pre ++ mod_ :: post)) = Return d ->
          TreeSet.In pkg d /\ TreeSet.In typePkg d)
  /\ (forall typePkg,
     GetNpmPackage cfg (Path mod_) = None ->
     GetNpmPackage cfg ("@types/" ++ Path mod_) = Some typePkg ->
     forall s, deps (step s mod_) = TreeSet.add typePkg (deps s)
               /\ hasFatalError (step s mod_) = hasFatalError s).
Proof.
  intros Hfirst. split.
  - intros pkg typePkg Hpkg Htypes.
    assert (Hstep : forall s,
      deps (step s mod_) = TreeSet.add typePkg (TreeSet.add pkg (deps s))
      /\ hasFatalError (step s mod_) = hasFatalError s).
    { intros s. rewrite (third_party_step g c ix ts from mod_ s Hfirst).
      cbv zeta. rewrite Hpkg, Htypes. cbn [deps hasFatalError Add].
      now rewrite deps_explain, fatal_explain. }
    split; [exact Hstep|]. intros pre post d Hret. split.
    + apply (returned_keeps g c ix ts from pre mod_ post pkg d); [|exact Hret].
      intros s. destruct (Hstep s) as [-> _]. TreeSetDec.fsetdec.
    + apply (returned_keeps g c ix ts from pre mod_ post typePkg d); [|exact Hret].
      intros s. destruct (Hstep s) as [-> _]. TreeSetDec.fsetdec.
  - intros typePkg Hpkg Htypes s.
    rewrite (third_party_step g c ix ts from mod_ s Hfirst).
    cbv zeta. rewrite Hpkg, Htypes. now rewrite deps_explain, fatal_explain.
Qed.


End ThirdParty.

(** ** The properties on the sample workspace *)

(** Decides membership in a concrete dependency set. *)
Ltac decide_member :=
  match goal with
  | |- TreeSet.In _ _ => apply TreeSet.mem_spec; vm_compute; reflexivity
  | |- ~ TreeSet.In _ _ =>
      let H := fresh in
      intros H; apply TreeSet.mem_spec in H; vm_compute in H; discriminate H
  end.

(** C1 as stated fails: the import [app/own] has an override directive and
    an index match, the override is the requesting target [//app:lib], and
    the call returns the empty set: the override's rendered label is not
    added. *)
Lemma C1_counterexample :
  let mod_ := Sample.import "app/own" "app/main.ts" in
  FindRuleWithOverride (Sample.workspace true)
    (importSpec (Sample.globals "") mod_) "js" = Some (Sample.lbl "" "app" "lib")
  /\ FindRulesByImportWithConfig Sample.ix (Sample.workspace true)
       (importSpec (Sample.globals "") mod_) "js"
     = [Sample.found (Sample.lbl "" "app" "other")]
  /\ exists d, outcomeOf (Sample.resolve true [mod_]) = Return d
       /\ Values d = []
       /\ ~ TreeSet.In (label.String (Sample.lbl "" "app" "lib")) d.
Proof.
  cbv zeta. split; [reflexivity|]. split; [reflexivity|].
  eexists. split; [reflexivity|]. split; [reflexivity | decide_member].
Qed.

Lemma C1_witness :
  let mod_ := Sample.import "shared/api" "app/main.ts" in
  FindRuleWithOverride (Sample.workspace true)
    (importSpec (Sample.globals "") mod_) "js" = Some (Sample.lbl "" "shared" "api")
  /\ label.Equal (defaultRepo Sample.from (Sample.lbl "" "shared" "api")) Sample.from
     = false
  /\ forall d,
       outcomeOf (Sample.resolve true [mod_]) = Return d ->
       TreeSet.In "//shared:api" d.
Proof.
  cbv zeta. split; [reflexivity|]. split; [reflexivity|].
  destruct (C1_override_first (Sample.globals "") (Sample.workspace true)
              Sample.ix Sample.ts Sample.from
              (Sample.import "shared/api" "app/main.ts")
              (Sample.lbl "" "shared" "api") eq_refl) as (_ & Hadd & _).
  destruct (Hadd eq_refl) as [_ Hret]. exact (Hret [] []).
Defined.

Lemma C2_witness :
  let c := Sample.rootSpelledWorkspace in
  let mod_ := Sample.import "app/self" "app/main.ts" in
  let o := {| Repo := "@"; Pkg := Pkg Sample.from; Name := Name Sample.from;
              Relative := false |} in
  FindRuleWithOverride c (importSpec (Sample.globals "") mod_) "js" = Some o
  /\ Repo Sample.from = "" /\ Relative Sample.from = false
  /\ label.String Sample.from = "//app:lib"
  /\ label.String o = "@//app:lib"
  /\ (exists d,
        outcomeOf (ResolveModuleDeps (Sample.globals "") c Sample.ix Sample.ts
                     [mod_] Sample.from) = Return d
        /\ Values d = ["@//app:lib"])
  /\ forall d,
       outcomeOf (ResolveModuleDeps (Sample.globals "") c Sample.ix Sample.ts
                    [mod_] Sample.from) = Return d ->
       TreeSet.In "@//app:lib" d.
Proof.
  cbv zeta. split; [reflexivity|]. split; [reflexivity|]. split; [reflexivity|].
  split; [reflexivity|]. split; [reflexivity|].
  split; [eexists; split; reflexivity|].
  destruct (C2_requester_enters_its_own_set (Sample.globals "")
              Sample.rootSpelledWorkspace Sample.ix Sample.ts Sample.from
              (Sample.import "app/self" "app/main.ts")) as [Hroot _].
  destruct (Hroot _ eq_refl eq_refl eq_refl eq_refl) as (_ & _ & Hret).
  exact (Hret [] []).
Defined.

Lemma C3_witness :
  let mod_ := Sample.import "lib/dup" "app/main.ts" in
  let pre := [Sample.import "foo" "app/main.ts"] in
  let post := [Sample.import "lib/util" "app/main.ts"] in
  FindRuleWithOverride (Sample.workspace false)
    (importSpec (Sample.globals "") mod_) "js" = None
  /\ 1 < length (filterMatches Sample.from
                   (FindRulesByImportWithConfig Sample.ix (Sample.workspace false)
                      (importSpec (Sample.globals "") mod_) "js"))
  /\ outcomeOf (Sample.resolve false (pre ++ mod_ :: post)) = Exit 1.
Proof.
  cbv zeta.
  assert (Hmany : 1 < length (filterMatches Sample.from
                   (FindRulesByImportWithConfig Sample.ix (Sample.workspace false)
                      (importSpec (Sample.globals "")
                         (Sample.import "lib/dup" "app/main.ts")) "js")))
    by (vm_compute; lia).
  split; [reflexivity|]. split; [exact Hmany|].
  apply (C3_ambiguity_is_fatal (Sample.globals "") (Sample.workspace false)
           Sample.ix Sample.ts Sample.from
           [Sample.import "foo" "app/main.ts"]
           (Sample.import "lib/dup" "app/main.ts")
           [Sample.import "lib/util" "app/main.ts"] eq_refl Hmany).
Defined.

Lemma C4_witness :
  let mod_ := Sample.import "left-pad" "app/main.ts" in
  let cfg := Exts (Sample.workspace true) "js" "app" in
  firstPartyUnmatched (Sample.globals "") (Sample.workspace true) Sample.ix
    Sample.ts mod_
  /\ thirdPartyUnmatched cfg mod_
  /\ isNativeImport (Sample.globals "") cfg mod_ = false
  /\ ValidateImportStatements cfg = true
  /\ outcomeOf (Sample.resolve true [mod_]) = Exit 1.
Proof.
  cbv zeta.
  assert (Hfirst : firstPartyUnmatched (Sample.globals "") (Sample.workspace true)
                     Sample.ix Sample.ts (Sample.import "left-pad" "app/main.ts"))
    by (repeat split).
  assert (Hthird : thirdPartyUnmatched (Exts (Sample.workspace true) "js" "app")
                     (Sample.import "left-pad" "app/main.ts"))
    by (repeat split).
  split; [exact Hfirst|]. split; [exact Hthird|].
  split; [reflexivity|]. split; [reflexivity|].
  destruct (C4_unresolved_import_validation (Sample.globals "")
              (Sample.workspace true) Sample.ix Sample.ts Sample.from
              (Sample.import "left-pad" "app/main.ts") Hfirst Hthird eq_refl)
    as [Hon _].
  destruct (Hon eq_refl) as [_ Hexit].
  exact (proj1 (proj2 (Hexit [] []))).
Defined.

(** C5 as stated fails: [react] and [@types/react] are both registered npm
    packages, but an override directive exists for the import [react]; the
    call returns the override's label only. *)
Lemma C5_counterexample :
  let mod_ := Sample.import "react" "app/main.ts" in
  let cfg := Exts (Sample.workspace true) "js" "app" in
  GetNpmPackage cfg (Path mod_) = Some "//:node_modules/react"
  /\ GetNpmPackage cfg ("@types/" ++ Path mod_) = Some "//:node_modules/@types/react"
  /\ exists d, outcomeOf (Sample.resolve true [mod_]) = Return d
       /\ Values d = ["//vendor:react"]
       /\ ~ TreeSet.In "//:node_modules/react" d
       /\ ~ TreeSet.In "//:node_modules/@types/react" d.
Proof.
  cbv zeta. split; [reflexivity|]. split; [reflexivity|].
  eexists. split; [reflexivity|]. split; [reflexivity|].
  split; decide_member.
Qed.

Lemma C5_witness :
  let mod_ := Sample.import "foo" "app/main.ts" in
  let cfg := Exts (Sample.workspace true) "js" "app" in
  firstPartyUnmatched (Sample.globals "") (Sample.workspace true) Sample.ix
    Sample.ts mod_
  /\ GetNpmPackage cfg (Path mod_) = Some "//:node_modules/foo"
  /\ GetNpmPackage cfg ("@types/" ++ Path mod_) = Some "//:node_modules/@types/foo"
  /\ forall d, outcomeOf (Sample.resolve true [mod_]) = Return d ->
       TreeSet.In "//:node_modules/foo" d
       /\ TreeSet.In "//:node_modules/@types/foo" d.
Proof.
  cbv zeta.
  assert (Hfirst : firstPartyUnmatched (Sample.globals "") (Sample.workspace true)
                     Sample.ix Sample.ts (Sample.import "foo" "app/main.ts"))
    by (repeat split).
  split; [exact Hfirst|]. split; [reflexivity|]. split; [reflexivity|].
  destruct (C5_typed_package_augmentation (Sample.globals "")
              (Sample.workspace true) Sample.ix Sample.ts Sample.from
              (Sample.import "foo" "app/main.ts") Hfirst) as [Hboth _].
  destruct (Hboth "//:node_modules/foo" "//:node_modules/@types/foo"
              eq_refl eq_refl) as [_ Hret].
  exact (Hret [] []).
Defined.

Lemma C6_witness :
  let a := Sample.import "foo" "app/main.ts" in
  let b := Sample.import "lib/util" "app/main.ts" in
  let d := Sample.import "shared/api" "app/view.ts" in
  (forall m, In m [a; b; d] <-> In m [d; a; b; a])
  /\ exitStatus (outcomeOf (Sample.resolve true [a; b; d]))
     = exitStatus (outcomeOf (Sample.resolve true [d; a; b; a])).
Proof.
  cbv zeta.
  assert (Hsame : forall m,
    In m [Sample.import "foo" "app/main.ts";
          Sample.import "lib/util" "app/main.ts";
          Sample.import "shared/api" "app/view.ts"]
    <-> In m [Sample.import "shared/api" "app/view.ts";
              Sample.import "foo" "app/main.ts";
              Sample.import "lib/util" "app/main.ts";
              Sample.import "foo" "app/main.ts"])
    by (intros m; cbn [In]; tauto).
  split; [exact Hsame|].
  exact (proj1 (C6_order_independent_sorted_output (Sample.globals "")
                  (Sample.workspace true) Sample.ix Sample.ts Sample.from
                  _ _ Hsame)).
Defined.


Lemma C10_witness :
  let mod_ := Sample.import "app/main" "app/view.ts" in
  let matches := FindRulesByImportWithConfig Sample.ix (Sample.workspace true)
                   (importSpec (Sample.globals "") mod_) "js" in
  FindRuleWithOverride (Sample.workspace true)
    (importSpec (Sample.globals "") mod_) "js" = None
  /\ matches = [Sample.found Sample.from]
  /\ (forall m, In m matches -> label.Equal Sample.from (FLabel m) = true)
  /\ ValidateImportStatements (Exts (Sample.workspace true) "js" "app") = true
  /\ logOf (Sample.resolve true [mod_]) = [].
Proof.
  cbv zeta.
  assert (Hself : forall m,
    In m (FindRulesByImportWithConfig Sample.ix (Sample.workspace true)
            (importSpec (Sample.globals "")
               (Sample.import "app/main" "app/view.ts")) "js") ->
    label.Equal Sample.from (FLabel m) = true).
  { intros m [<- | []]. reflexivity. }
  split; [reflexivity|]. split; [reflexivity|]. split; [exact Hself|].
  split; [reflexivity|].
  assert (Hsome : FindRulesByImportWithConfig Sample.ix (Sample.workspace true)
            (importSpec (Sample.globals "")
               (Sample.import "app/main" "app/view.ts")) "js" <> [])
    by discriminate.
  exact (proj2 (proj2 (proj2
    (C10_only_self_matches_end_the_chain (Sample.globals "")
       (Sample.workspace true) Sample.ix Sample.ts Sample.from
       (Sample.import "app/main" "app/view.ts") eq_refl Hsome Hself)))).
Defined.

(** ** Where the code departs from the specification *)

(** The index file of the specification, [a/index.ts], provides [a/index]
    and its directory [a]: no byte of [a] occurs in the index name. *)
Lemma Imports_index_file_a :
  Imports (Sample.globals "") (Sample.workspace true) ["a/index.ts"] ""
  = Some [{| Lang := "js"; Imp := "a/index" |}; {| Lang := "js"; Imp := "a" |}].
Proof. reflexivity. Qed.

(** C8 at the source file [admin/index.ts] of the root package. The
    directory of its spec [admin/index] is [admin], but the extra import
    specification that [Imports] registers is [adm]: [strings.TrimRight]
    takes [indexFileName] as a set of bytes and strips the trailing [n] and
    [i] of the directory name. *)
Theorem C8_index_directory_loses_trailing_bytes g c :
  isIndexFile g "admin/index.ts" = true ->
  stripImportExtensions g "admin/index.ts" = "admin/index" ->
  path.Dir "admin/index" = "admin"
  /\ strings.TrimRight (path.Dir "admin/index") indexFileName = "adm"
  /\ exists rest,
       Imports g c ["admin/index.ts"] ""
       = Some ({| Lang := languageName g; Imp := "admin/index" |}
               :: {| Lang := languageName g; Imp := "adm" |} :: rest).
Proof.
  intros Hindex Hstrip. split; [reflexivity|]. split; [reflexivity|].
  assert (Hsrc : exists rest,
    provideSrc g (BaseDir (Exts c (languageName g) "")) "" "admin/index.ts"
    = {| Lang := languageName g; Imp := "admin/index" |}
      :: {| Lang := languageName g; Imp := "adm" |} :: rest).
  { unfold provideSrc.
    change (path.Clean (path.Join [""; "admin/index.ts"])) with "admin/index.ts".
    unfold sourceSpecs. cbn [flat_map]. unfold provideSpec at 1.
    rewrite Hindex, Hstrip. eexists. reflexivity. }
  destruct Hsrc as [rest Hsrc]. exists rest.
  unfold Imports. cbn [flat_map]. rewrite Hsrc, app_nil_r. reflexivity.
Qed.

Lemma C8_witness :
  isIndexFile (Sample.globals "") "admin/index.ts" = true
  /\ stripImportExtensions (Sample.globals "") "admin/index.ts" = "admin/index"
  /\ Imports (Sample.globals "") (Sample.workspace true) ["admin/index.ts"] ""
     = Some [{| Lang := "js"; Imp := "admin/index" |};
             {| Lang := "js"; Imp := "adm" |}]
  /\ exists rest,
       Imports (Sample.globals "") (Sample.workspace true) ["admin/index.ts"] ""
       = Some ({| Lang := "js"; Imp := "admin/index" |}
               :: {| Lang := "js"; Imp := "adm" |} :: rest).
Proof.
  split; [reflexivity|]. split; [reflexivity|]. split; [reflexivity|].
  exact (proj2 (proj2 (C8_index_directory_loses_trailing_bytes
                         (Sample.globals "") (Sample.workspace true)
                         eq_refl eq_refl))).
Defined.

Section Diagnostics.

Context (g : Globals) (c : Config) (ix : RuleIndex) (ts : TypeScript)
  (from : Label).

Local Abbreviation step := (resolveImport g c ix ts from).
Local Abbreviation cfg := (Exts c (languageName g) (Pkg from)).

(** C9 at the two adds that carry no explanation. When the explain target
    is the typed-declarations package that the third-party rule adds next
    to the runtime package, or the [@types/node] package that the
    native-module rule adds, the dependency enters the set and the log
    stays as it was: no trace line is written for it. The add of the runtime
    package in the same rule does write its trace line. *)
Theorem C9_augmentation_and_native_adds_are_not_explained mod_ s :
  firstPartyUnmatched g c ix ts mod_ ->
  (forall pkg typePkg,
     GetNpmPackage cfg (Path mod_) = Some pkg ->
     GetNpmPackage cfg ("@types/" ++ Path mod_) = Some typePkg ->
     EXPLAIN_DEPENDENCY g = typePkg ->
     pkg <> typePkg ->
     deps (step s mod_) = TreeSet.add typePkg (TreeSet.add pkg (deps s))
     /\ TreeSet.In (EXPLAIN_DEPENDENCY g) (deps (step s mod_))
     /\ log (step s mod_) = log s)
  /\ (forall typePkg,
     thirdPartyUnmatched cfg mod_ ->
     isNativeImport g cfg mod_ = true ->
     GetNpmPackage cfg "@types/node" = Some typePkg ->
     EXPLAIN_DEPENDENCY g = typePkg ->
     deps (step s mod_) = TreeSet.add typePkg (deps s)
     /\ TreeSet.In (EXPLAIN_DEPENDENCY g) (deps (step s mod_))
     /\ log (step s mod_) = log s)
  /\ (forall pkg,
     GetNpmPackage cfg (Path mod_) = Some pkg ->
     GetNpmPackage cfg ("@types/" ++ Path mod_) = None ->
     EXPLAIN_DEPENDENCY g = pkg ->
     log (step s mod_)
     = log s ++ [Explaining pkg (label.String from) (SourcePath mod_) (Path mod_)
                   (ByThirdPartyPackage pkg)]).
Proof.
  intros Hfirst. rewrite (third_party_step g c ix ts from mod_ s Hfirst).
  cbv zeta. split; [|split]; cycle 2.
  { intros pkg Hpkg Htypes Hexplain. rewrite Hpkg, Htypes.
    rewrite log_explain_target; [reflexivity|]. now apply String.eqb_eq. }
  - intros pkg typePkg Hpkg Htypes Hexplain Hdiff. rewrite Hpkg, Htypes.
    cbn [deps log Add]. rewrite deps_explain, log_explain_other.
    + cbn [deps log Add DEBUG]. repeat split.
      rewrite Hexplain. apply TreeSet.add_spec. now left.
    + apply String.eqb_neq. congruence.
  - intros typePkg [Hpkg Htypes] Hnative Hnode Hexplain.
    rewrite Hpkg, Htypes, Hnative, Hnode. cbn [deps log Add DEBUG].
    repeat split. rewrite Hexplain. apply TreeSet.add_spec. now left.
Qed.

End Diagnostics.

Lemma C9_witness :
  let g := Sample.globals "//:node_modules/@types/foo" in
  let mod_ := Sample.import "foo" "app/main.ts" in
  let cfg := Exts (Sample.workspace true) "js" "app" in
  let r := ResolveModuleDeps g (Sample.workspace true) Sample.ix Sample.ts
             [mod_] Sample.from in
  firstPartyUnmatched g (Sample.workspace true) Sample.ix Sample.ts mod_
  /\ GetNpmPackage cfg (Path mod_) = Some "//:node_modules/foo"
  /\ GetNpmPackage cfg ("@types/" ++ Path mod_) = Some "//:node_modules/@types/foo"
  /\ EXPLAIN_DEPENDENCY g = "//:node_modules/@types/foo"
  /\ (exists d, outcomeOf r = Return d
        /\ Values d = ["//:node_modules/@types/foo"; "//:node_modules/foo"])
  /\ logOf r = []
  /\ forall s,
       log (resolveImport g (Sample.workspace true) Sample.ix Sample.ts
              Sample.from s mod_) = log s.
Proof.
  cbv zeta.
  assert (Hfirst : firstPartyUnmatched (Sample.globals "//:node_modules/@types/foo")
                     (Sample.workspace true) Sample.ix Sample.ts
                     (Sample.import "foo" "app/main.ts"))
    by (repeat split).
  split; [exact Hfirst|]. split; [reflexivity|]. split; [reflexivity|].
  split; [reflexivity|]. split; [eexists; split; reflexivity|].
  split; [reflexivity|]. intros s.
  destruct (C9_augmentation_and_native_adds_are_not_explained
              (Sample.globals "//:node_modules/@types/foo")
              (Sample.workspace true) Sample.ix Sample.ts Sample.from
              (Sample.import "foo" "app/main.ts") s Hfirst) as [Haug _].
  assert (Hdiff : "//:node_modules/foo" <> "//:node_modules/@types/foo")
    by discriminate.
  exact (proj2 (proj2 (Haug "//:node_modules/foo" "//:node_modules/@types/foo"
                         eq_refl eq_refl eq_refl Hdiff))).
Defined.

(** * Further properties of the code *)

(** ** Trimming by a set of bytes *)

Lemma TrimRight_split (s cutset : string) :
  exists suffix,
    s = (strings.TrimRight s cutset ++ suffix)%string
    /\ allInCutset suffix cutset = true.
Proof.
  induction s as [|c rest (suffix & Hrest & Hall)].
  - exists ""%string. now split.
  - cbn [strings.TrimRight].
    destruct (strings.TrimRight rest cutset) as [|d kept] eqn:Htrim.
    + cbn in Hrest. subst suffix.
      destruct (strings.inCutset c cutset) eqn:Hc.
      * exists (String c rest). split; [reflexivity|]. cbn. now rewrite Hc.
      * exists rest. now split.
    + exists suffix. split; [|exact Hall]. cbn. cbn in Hrest. now rewrite <- Hrest.
Qed.

Lemma TrimRight_end (s cutset : string) :
  endsInCutset (strings.TrimRight s cutset) cutset = false.
Proof.
  induction s as [|c rest IH]; [reflexivity|]. cbn [strings.TrimRight].
  destruct (strings.TrimRight rest cutset) as [|d kept] eqn:Htrim.
  - destruct (strings.inCutset c cutset) eqn:Hc; [reflexivity | exact Hc].
  - exact IH.
Qed.

Lemma TrimRight_fixed (s cutset : string) :
  strings.TrimRight s cutset = s <-> endsInCutset s cutset = false.
Proof.
  split.
  - intros H. rewrite <- H. apply TrimRight_end.
  - induction s as [|c rest IH]; [reflexivity|]. intros Hend.
    cbn [strings.TrimRight]. destruct rest as [|d k].
    + cbn in *. now rewrite Hend.
    + rewrite (IH Hend). reflexivity.
Qed.

(** ** The import provider *)

Section Provider.

Context (g : Globals) (c : Config).

Local Abbreviation full pkg src := (path.Clean (path.Join [pkg; src])).
Local Abbreviation spec_ p := {| Lang := languageName g; Imp := p |}.

Lemma provideSpec_shape src spec :
  exists rest, provideSpec g src spec = spec_ (stripImportExtensions g spec) :: rest
               /\ length rest <= 1
               /\ Forall (fun sp => Lang sp = languageName g) rest.
Proof.
  unfold provideSpec. destruct (isIndexFile g src); eexists; split;
    try reflexivity; split; cbn; try lia; repeat constructor.
Qed.

Lemma provideSrc_shape baseDir pkg src :
  exists rest,
    provideSrc g baseDir pkg src
    = spec_ (stripImportExtensions g (full pkg src)) :: rest
    /\ length rest <= 3
    /\ Forall (fun sp => Lang sp = languageName g) rest.
Proof.
  unfold provideSrc, sourceSpecs. cbn [flat_map].
  destruct (provideSpec_shape (full pkg src) (full pkg src)) as (r1 & -> & Hl1 & Hf1).
  assert (Hsecond : exists r2,
    flat_map (provideSpec g (full pkg src))
      match filepath_Rel g baseDir (full pkg src) with
      | Some rebasedSrc =>
          if negb (rebasedSrc =? full pkg src) then [rebasedSrc] else []
      | None => []
      end = r2
    /\ length r2 <= 2 /\ Forall (fun sp => Lang sp = languageName g) r2).
  { destruct (filepath_Rel g baseDir (full pkg src)) as [rebased|].
    - destruct (negb (rebased =? full pkg src)).
      + cbn [flat_map]. rewrite app_nil_r.
        destruct (provideSpec_shape (full pkg src) rebased) as (r & -> & Hl & Hf).
        eexists. split; [reflexivity|]. split; [cbn; lia|].
        constructor; [reflexivity | exact Hf].
      + exists []. split; [reflexivity | split; [cbn; lia | constructor]].
    - exists []. split; [reflexivity | split; [cbn; lia | constructor]]. }
  destruct Hsecond as (r2 & -> & Hl2 & Hf2).
  exists (r1 ++ r2). split; [reflexivity|]. split.
  - rewrite length_app. lia.
  - apply Forall_app. now split.
Qed.

Lemma provides_shape baseDir pkg srcs :
  let provides := flat_map (provideSrc g baseDir pkg) srcs in
  length srcs <= length provides <= 4 * length srcs
  /\ Forall (fun sp => Lang sp = languageName g) provides
  /\ forall src, In src srcs ->
       In (spec_ (stripImportExtensions g (full pkg src))) provides.
Proof.
  cbv zeta. induction srcs as [|src rest (Hlen & Hlang & Hin)].
  - cbn. split; [lia | split; [constructor | intros src []]].
  - cbn [flat_map length].
    destruct (provideSrc_shape baseDir pkg src) as (r & -> & Hl & Hf).
    rewrite length_app. cbn [length]. split; [lia | split].
    + apply Forall_app. split; [|exact Hlang].
      constructor; [reflexivity | exact Hf].
    + intros src' [<- | Hin']; [now left|].
      apply in_or_app. right. now apply Hin.
Qed.

(** X1. [Imports] returns the nil slice exactly when the rule has no
    source: every source provides at least one import specification. *)
Theorem Imports_nil_iff_no_sources srcs pkg :
  Imports g c srcs pkg = None <-> srcs = [].
Proof.
  unfold Imports. split.
  - destruct srcs as [|src rest]; [reflexivity|]. cbn [flat_map].
    destruct (provideSrc_shape (BaseDir (Exts c (languageName g) pkg)) pkg src)
      as (r & -> & _). discriminate.
  - intros ->. reflexivity.
Qed.

(** X2. What [Imports] provides is tagged with the language name
    throughout, holds between one and four specifications per source, and
    holds the extension-stripped full path of every source, whatever
    [filepath.Rel] answers and whether it fails or not. *)
Theorem Imports_provides_every_source srcs pkg provides :
  Imports g c srcs pkg = Some provides ->
  Forall (fun sp => Lang sp = languageName g) provides
  /\ length srcs <= length provides <= 4 * length srcs
  /\ forall src, In src srcs ->
       In (spec_ (stripImportExtensions g (full pkg src))) provides.
Proof.
  unfold Imports.
  pose proof (provides_shape (BaseDir (Exts c (languageName g) pkg)) pkg srcs)
    as (Hlen & Hlang & Hin).
  destruct (flat_map _ srcs) as [|p ps] eqn:Hp; [discriminate|].
  intros [= <-]. repeat split; try assumption; lia.
Qed.

(** X3. When no source is an index file and [filepath.Rel] fails or
    answers the path it was given for every source, [Imports] provides
    exactly the extension-stripped full paths of the sources, in their
    order: a failed rebasing loses nothing and adds nothing. *)
Theorem Imports_without_rebasing srcs pkg :
  srcs <> [] ->
  (forall src, In src srcs ->
     isIndexFile g (full pkg src) = false
     /\ (filepath_Rel g (BaseDir (Exts c (languageName g) pkg)) (full pkg src) = None
         \/ filepath_Rel g (BaseDir (Exts c (languageName g) pkg)) (full pkg src)
            = Some (full pkg src))) ->
  Imports g c srcs pkg
  = Some (map (fun src => spec_ (stripImportExtensions g (full pkg src))) srcs).
Proof.
  intros Hsome Hall. unfold Imports.
  assert (Hflat : flat_map (provideSrc g (BaseDir (Exts c (languageName g) pkg)) pkg) srcs
                  = map (fun src => spec_ (stripImportExtensions g (full pkg src))) srcs).
  { clear Hsome. induction srcs as [|src rest IH]; [reflexivity|].
    cbn [flat_map map]. rewrite IH by (intros s' Hs'; apply Hall; now right).
    destruct (Hall src (or_introl eq_refl)) as [Hidx Hrel].
    unfold provideSrc, sourceSpecs, provideSpec. rewrite Hidx.
    destruct Hrel as [-> | ->]; [reflexivity|].
    rewrite String.eqb_refl. reflexivity. }
  rewrite Hflat. destruct srcs; [congruence | reflexivity].
Qed.

(** X4. For an index file, the second specification provided for a
    candidate is its directory cut at the right: the directory is that
    specification followed by bytes of the index name only, and the
    specification never ends in a byte of the index name. It is the
    directory itself exactly when the directory does not end in one of the
    bytes of the index name. *)
Theorem index_directory_spec src spec :
  isIndexFile g src = true ->
  let dir := path.Dir (stripImportExtensions g spec) in
  exists dirSpec suffix,
    provideSpec g src spec
    = [spec_ (stripImportExtensions g spec); spec_ dirSpec]
    /\ dir = (dirSpec ++ suffix)%string
    /\ allInCutset suffix indexFileName = true
    /\ endsInCutset dirSpec indexFileName = false
    /\ (dirSpec = dir <-> endsInCutset dir indexFileName = false).
Proof.
  intros Hindex dir. unfold provideSpec. rewrite Hindex. fold dir.
  destruct (TrimRight_split dir indexFileName) as (suffix & Hsplit & Hall).
  exists (strings.TrimRight dir indexFileName), suffix.
  split; [reflexivity|]. split; [exact Hsplit|]. split; [exact Hall|].
  split; [apply TrimRight_end | apply TrimRight_fixed].
Qed.

End Provider.

(** ** The loop of the resolver as a whole *)

Section WholeLoop.

Context (g : Globals) (c : Config) (ix : RuleIndex) (ts : TypeScript)
  (from : Label).

Local Abbreviation step := (resolveImport g c ix ts from).
Local Abbreviation loop modules s := (resolveLoop g c ix ts modules from s).
Local Abbreviation resolve modules := (ResolveModuleDeps g c ix ts modules from).
Local Abbreviation alone mod_ := (resolveImport g c ix ts from initial mod_).

(** The log after an import is the log before it followed by what the
    import logs on its own. *)
Lemma step_log s mod_ : log (step s mod_) = log s ++ log (alone mod_).
Proof.
  unfold resolveImport.
  chain; cbn [log DEBUG Add setFatal Printf initial]; unfold explain;
    repeat match goal with |- context [if ?b then _ else _] => destruct b end;
    cbn [log DEBUG Add setFatal Printf initial app];
    rewrite ?app_nil_r; reflexivity.
Qed.

Lemma loop_log modules : forall s,
  log (loop modules s) = log s ++ flat_map (fun m => log (alone m)) modules.
Proof.
  induction modules as [|m rest IH]; intros s.
  - cbn. now rewrite app_nil_r.
  - rewrite loop_cons, IH, step_log. cbn [flat_map]. now rewrite app_assoc.
Qed.

Lemma resolve_alone mod_ :
  resolve [mod_] = (finish (alone mod_), log (alone mod_), debug (alone mod_)).
Proof. reflexivity. Qed.

Lemma alone_exit mod_ :
  outcomeOf (resolve [mod_]) = Exit 1 <-> hasFatalError (alone mod_) = true.
Proof.
  rewrite resolve_alone. unfold outcomeOf, finish. cbn [fst].
  destruct (hasFatalError (alone mod_)); split; congruence.
Qed.

Lemma alone_return mod_ d :
  outcomeOf (resolve [mod_]) = Return d <->
  hasFatalError (alone mod_) = false /\ d = deps (alone mod_).
Proof.
  rewrite resolve_alone. unfold outcomeOf, finish. cbn [fst].
  destruct (hasFatalError (alone mod_)); split.
  - discriminate.
  - intros [H _]. discriminate H.
  - intros [= <-]. now split.
  - intros [_ ->]. reflexivity.
Qed.

Lemma resolve_exit modules :
  outcomeOf (resolve modules) = Exit 1 <->
  hasFatalError (loop modules initial) = true.
Proof.
  unfold ResolveModuleDeps, outcomeOf, finish. cbn [fst].
  destruct (hasFatalError _); split; congruence.
Qed.

Lemma resolve_return modules d :
  outcomeOf (resolve modules) = Return d <->
  hasFatalError (loop modules initial) = false /\ d = deps (loop modules initial).
Proof.
  unfold ResolveModuleDeps, outcomeOf, finish. cbn [fst].
  destruct (hasFatalError _); split.
  - discriminate.
  - intros [H _]. discriminate H.
  - intros [= <-]. now split.
  - intros [_ ->]. reflexivity.
Qed.

Lemma returns_iff_all_return modules :
  (exists d, outcomeOf (resolve modules) = Return d) <->
  forall mod_, In mod_ modules -> exists d, outcomeOf (resolve [mod_]) = Return d.
Proof.
  split.
  - intros [d Hd] m Hin. apply resolve_return in Hd. destruct Hd as [Hd _].
    rewrite loop_fatal in Hd. cbn [hasFatalError initial orb] in Hd.
    exists (deps (alone m)). apply alone_return. split; [|reflexivity].
    destruct (hasFatalError (alone m)) eqn:Hm; [|reflexivity].
    assert (existsb (fun m => hasFatalError (alone m)) modules = true)
      by (apply existsb_exists; now exists m).
    congruence.
  - intros Hall. exists (deps (loop modules initial)). apply resolve_return.
    split; [|reflexivity]. rewrite loop_fatal. cbn [hasFatalError initial orb].
    destruct (existsb _ modules) eqn:Hex; [|reflexivity].
    apply existsb_exists in Hex. destruct Hex as (m & Hin & Hm).
    destruct (Hall m Hin) as [d Hd]. apply alone_return in Hd.
    destruct Hd as [Hd _]. congruence.
Qed.

(** X5. The call ends the process exactly when one of the imports,
    resolved on its own, would: the imports are judged independently, and
    1 is the only status the call exits with. *)
Theorem exits_iff_some_import_is_fatal modules :
  (outcomeOf (resolve modules) = Exit 1 <->
   exists mod_, In mod_ modules /\ outcomeOf (resolve [mod_]) = Exit 1)
  /\ (forall status, outcomeOf (resolve modules) = Exit status -> status = 1%Z)
  /\ ((exists d, outcomeOf (resolve modules) = Return d) <->
      forall mod_, In mod_ modules -> exists d, outcomeOf (resolve [mod_]) = Return d).
Proof.
  split; [|split].
  - rewrite resolve_exit, loop_fatal. cbn [hasFatalError initial orb].
    rewrite existsb_exists. split; intros (m & Hin & H); exists m;
      (split; [exact Hin | now apply alone_exit]).
  - unfold ResolveModuleDeps, outcomeOf, finish. cbn [fst].
    destruct (hasFatalError _); intros status [=]. now subst.
  - apply returns_iff_all_return.
Qed.

(** X6. The set the call returns holds exactly the dependencies that its
    imports yield when each is resolved on its own: nothing is lost and
    nothing is invented by resolving them together. *)
Theorem returned_set_is_the_union modules d :
  outcomeOf (resolve modules) = Return d ->
  forall x,
    TreeSet.In x d <->
    exists mod_ dm, In mod_ modules
                    /\ outcomeOf (resolve [mod_]) = Return dm
                    /\ TreeSet.In x dm.
Proof.
  intros Hd x.
  assert (Hret : exists d', outcomeOf (resolve modules) = Return d') by now exists d.
  pose proof (proj1 (returns_iff_all_return modules) Hret) as Hall.
  clear Hret. rename Hall into Hret.
  apply resolve_return in Hd. destruct Hd as [_ ->]. rewrite loop_deps. split.
  - intros [Hin | (m & Hin & Hx)].
    + apply TreeSet.empty_spec in Hin. destruct Hin.
    + destruct (Hret m Hin) as [dm Hdm]. exists m, dm.
      split; [exact Hin|]. split; [exact Hdm|].
      apply alone_return in Hdm. destruct Hdm as [_ ->]. exact Hx.
  - intros (m & dm & Hin & Hdm & Hx). right. exists m. split; [exact Hin|].
    apply alone_return in Hdm. destruct Hdm as [_ ->]. exact Hx.
Qed.

(** X7. The log of the call is the logs of its imports, each resolved on
    its own, one after the other in the order of the imports. *)
Theorem log_follows_import_order modules :
  logOf (resolve modules) = flat_map (fun m => logOf (resolve [m])) modules.
Proof.
  unfold ResolveModuleDeps, logOf. cbn [fst snd]. rewrite loop_log. reflexivity.
Qed.

End WholeLoop.

(** ** What the log tells *)

Section LogContent.

Context (g : Globals) (c : Config) (ix : RuleIndex) (ts : TypeScript)
  (from : Label).

Local Abbreviation resolve modules := (ResolveModuleDeps g c ix ts modules from).
Local Abbreviation alone mod_ := (resolveImport g c ix ts from initial mod_).

Lemma alone_fatal_iff_error mod_ :
  hasFatalError (alone mod_) = existsb isErrorLine (log (alone mod_)).
Proof.
  unfold resolveImport.
  chain; cbn [log hasFatalError DEBUG Add setFatal Printf initial]; unfold explain;
    repeat match goal with |- context [if ?b then _ else _] => destruct b end;
    reflexivity.
Qed.

Lemma alone_explaining mod_ dep target source importPath how :
  In (Explaining dep target source importPath how) (log (alone mod_)) ->
  dep = EXPLAIN_DEPENDENCY g /\ target = label.String from
  /\ source = SourcePath mod_ /\ importPath = Path mod_
  /\ TreeSet.In dep (deps (alone mod_)).
Proof.
  unfold resolveImport.
  chain; cbn [log deps DEBUG Add setFatal Printf initial]; unfold explain;
    repeat match goal with
      | |- context [if ?b then _ else _] => destruct b eqn:?
      end;
    cbn [log deps DEBUG Add setFatal Printf initial app In];
    intros Hin;
    repeat match goal with
      | H : _ \/ _ |- _ => destruct H
      | H : False |- _ => destruct H
      | H : Explaining _ _ _ _ _ = Explaining _ _ _ _ _ |- _ =>
          injection H as <- <- <- <- <-
      | H : _ = Explaining _ _ _ _ _ |- _ => discriminate H
      | H : (_ =? _) = true |- _ => apply String.eqb_eq in H
      end;
    repeat split; try reflexivity;
    match goal with
    | H : EXPLAIN_DEPENDENCY g = _ |- _ => rewrite H
    end;
    rewrite ?TreeSet.add_spec; auto.
Qed.

(** X8. The call exits exactly when it has logged an error line, an
    ambiguity or a validation error: no exit without a reported cause, no
    reported error without an exit. *)
Theorem exits_iff_error_logged modules :
  outcomeOf (resolve modules) = Exit 1 <->
  exists line, In line (logOf (resolve modules)) /\ isErrorLine line = true.
Proof.
  rewrite resolve_exit, loop_fatal. cbn [hasFatalError initial orb].
  unfold ResolveModuleDeps, logOf. cbn [fst snd]. rewrite loop_log. cbn [log initial app].
  rewrite existsb_exists. split.
  - intros (m & Hin & Hm). rewrite alone_fatal_iff_error in Hm.
    apply existsb_exists in Hm. destruct Hm as (line & Hline & Herr).
    exists line. split; [|exact Herr]. apply in_flat_map. now exists m.
  - intros (line & Hline & Herr). apply in_flat_map in Hline.
    destruct Hline as (m & Hin & Hline). exists m. split; [exact Hin|].
    rewrite alone_fatal_iff_error. apply existsb_exists. now exists line.
Qed.

(** X9. Every explanation in the log is about the explain target, names the
    requesting target and the path and source file of one of the imports,
    and concerns a dependency that the call, when it returns, has in its
    set: nothing is explained that was not added. *)
Theorem explanations_are_about_added_dependencies modules dep target source
  importPath how :
  In (Explaining dep target source importPath how) (logOf (resolve modules)) ->
  dep = EXPLAIN_DEPENDENCY g
  /\ target = label.String from
  /\ (exists mod_, In mod_ modules /\ source = SourcePath mod_
                   /\ importPath = Path mod_)
  /\ forall d, outcomeOf (resolve modules) = Return d -> TreeSet.In dep d.
Proof.
  unfold ResolveModuleDeps at 1, logOf. cbn [fst snd]. rewrite loop_log.
  cbn [log initial app]. intros Hin. apply in_flat_map in Hin.
  destruct Hin as (m & Hm & Hline).
  apply alone_explaining in Hline.
  destruct Hline as (Hdep & Htarget & Hsource & Hpath & Hadded).
  split; [exact Hdep|]. split; [exact Htarget|]. split.
  - exists m. now repeat split.
  - intros d Hd. apply resolve_return in Hd. destruct Hd as [_ ->].
    apply loop_deps. right. now exists m.
Qed.

(** X10. Resolving more imports never loses anything: if the call exits
    for some imports it exits for every collection that holds them, and if
    it returns for both, the smaller set is part of the larger. *)
Theorem more_imports_only_add modules modules' :
  incl modules modules' ->
  (outcomeOf (resolve modules) = Exit 1 -> outcomeOf (resolve modules') = Exit 1)
  /\ forall d d',
       outcomeOf (resolve modules) = Return d ->
       outcomeOf (resolve modules') = Return d' ->
       TreeSet.Subset d d'.
Proof.
  intros Hincl. split.
  - rewrite !resolve_exit, !loop_fatal. cbn [hasFatalError initial orb].
    rewrite !existsb_exists. intros (m & Hin & Hm). exists m.
    split; [now apply Hincl | exact Hm].
  - intros d d' Hd Hd' x. apply resolve_return in Hd, Hd'.
    destruct Hd as [_ ->], Hd' as [_ ->]. rewrite !loop_deps.
    intros [Hx | (m & Hin & Hx)]; [now left|].
    right. exists m. split; [now apply Hincl | exact Hx].
Qed.

End LogContent.

(** ** More of the priority chain *)

Section Priority.

Context (g : Globals) (c : Config) (ix : RuleIndex) (ts : TypeScript)
  (from : Label).

Local Abbreviation step := (resolveImport g c ix ts from).
Local Abbreviation cfg := (Exts c (languageName g) (Pkg from)).
Local Abbreviation resolve modules := (ResolveModuleDeps g c ix ts modules from).
Local Abbreviation override mod_ :=
  (FindRuleWithOverride c (importSpec g mod_) (languageName g)).
Local Abbreviation matches mod_ :=
  (FindRulesByImportWithConfig ix c (importSpec g mod_) (languageName g)).

(** X11. With no override directive, an import whose index matches leave
    exactly one candidate once the requesting target and the targets
    embedding it are set aside is resolved to that candidate, rendered
    relative to the requester, without any error, whatever else the index
    returned for it; the registries and the package configuration are not
    consulted. *)
Theorem single_candidate_is_resolved mod_ m :
  override mod_ = None ->
  filterMatches from (matches mod_) = [m] ->
  let dep := label.String (label.Rel (FLabel m) (Repo from) (Pkg from)) in
  (forall s, deps (step s mod_) = TreeSet.add dep (deps s)
             /\ hasFatalError (step s mod_) = hasFatalError s)
  /\ (exists d, outcomeOf (resolve [mod_]) = Return d /\ Values d = [dep])
  /\ (forall ts' exts' s,
        FindRulesByImportWithConfig ix (withExts c exts') (importSpec g mod_)
          (languageName g) = matches mod_ ->
        resolveImport g (withExts c exts') ix ts' from s mod_ = step s mod_).
Proof.
  intros Hover Hone dep. unfold importSpec in *.
  assert (Hlen : Nat.ltb 0 (length (matches mod_)) = true).
  { unfold importSpec. destruct (FindRulesByImportWithConfig ix c _ _);
      [discriminate Hone | reflexivity]. }
  unfold importSpec in Hlen.
  assert (Hstep : forall s, step s mod_
    = explain g from mod_ dep ByIndexedLabels
        (Add dep (DEBUG (DebugMatches (Name from) [m])
                    (DEBUG (DebugResolve (Path mod_) (Name from)) s)))).
  { intros s. unfold resolveImport. now rewrite Hover, Hlen, Hone. }
  split; [|split].
  - intros s. rewrite Hstep, deps_explain, fatal_explain. now split.
  - unfold ResolveModuleDeps, resolveLoop, outcomeOf, finish. cbn [fold_left fst].
    rewrite Hstep, fatal_explain, deps_explain. cbn [hasFatalError deps Add DEBUG initial].
    eexists. split; reflexivity.
  - intros ts' exts' s Hix. rewrite Hstep.
    unfold resolveImport, withExts in *. cbn [FindRuleWithOverride] in *.
    now rewrite Hover, Hix, Hlen, Hone.
Qed.

(** X12. With no override directive and no index match, a named package
    or, failing that, an importable file registered for the import path is
    the dependency added, without any error; the package configuration
    (npm registry, environment type, validation flag) is not consulted, and
    a named package makes the importable-file registry irrelevant as
    well. *)
Theorem first_party_registries_precede_npm mod_ pkg :
  override mod_ = None ->
  matches mod_ = [] ->
  GetNamedPackage ts (Path mod_) = Some pkg
  \/ (GetNamedPackage ts (Path mod_) = None
      /\ GetImportableFile ts (Path mod_) = Some pkg) ->
  (forall s, deps (step s mod_) = TreeSet.add pkg (deps s)
             /\ hasFatalError (step s mod_) = hasFatalError s)
  /\ (forall exts' s,
        FindRulesByImportWithConfig ix (withExts c exts') (importSpec g mod_)
          (languageName g) = [] ->
        resolveImport g (withExts c exts') ix ts from s mod_ = step s mod_)
  /\ (GetNamedPackage ts (Path mod_) = Some pkg ->
      forall files' s,
        resolveImport g c ix
          {| GetNamedPackage := GetNamedPackage ts; GetImportableFile := files' |}
          from s mod_ = step s mod_).
Proof.
  intros Hover Hnone Hreg. unfold importSpec in *.
  assert (Hstep : forall s, step s mod_
    = explain g from mod_ pkg (ByDeclaredPackage pkg)
        (Add pkg (DEBUG (DebugResolve (Path mod_) (Name from)) s))).
  { intros s. unfold resolveImport. rewrite Hover, Hnone. cbn [length Nat.ltb Nat.leb].
    destruct Hreg as [-> | [-> ->]]; reflexivity. }
  split; [|split].
  - intros s. rewrite Hstep, deps_explain, fatal_explain. now split.
  - intros exts' s Hix. rewrite Hstep.
    unfold resolveImport, withExts in *. cbn [FindRuleWithOverride] in *.
    rewrite Hover, Hix. cbn [length Nat.ltb Nat.leb].
    destruct Hreg as [-> | [-> ->]]; reflexivity.
  - intros Hnamed files' s. rewrite Hstep. unfold resolveImport.
    cbn [GetNamedPackage]. rewrite Hover, Hnone, Hnamed. reflexivity.
Qed.

(** X13. The repository of an override. An override in the requester's
    repository, named or left unset, is skipped exactly when its package,
    name and relative flag are the requester's, and is otherwise rendered
    without repository qualifier; an override in another repository is
    never skipped and keeps its qualifier. *)
Theorem override_repository_normalised o :
  (Repo o = "" \/ Repo o = Repo from ->
     overrideDep from o
     = if (Pkg o =? Pkg from) && (Name o =? Name from)
          && Bool.eqb (Relative o) (Relative from)
       then None else Some (withRepo o ""))
  /\ (Repo o <> "" -> Repo o <> Repo from -> overrideDep from o = Some o).
Proof.
  unfold overrideDep, defaultRepo, dropOwnRepo, label.Equal. split.
  - intros Hrepo. destruct (Repo o =? "") eqn:Hunset.
    + cbn [label.Repo label.Pkg label.Name label.Relative label.withRepo].
      rewrite String.eqb_refl. cbn [andb].
      destruct ((Pkg o =? Pkg from) && (Name o =? Name from)
                && Bool.eqb (Relative o) (Relative from)); reflexivity.
    + destruct Hrepo as [Hrepo | Hrepo].
      * apply String.eqb_neq in Hunset. contradiction.
      * rewrite Hrepo, String.eqb_refl. cbn [andb].
        destruct ((Pkg o =? Pkg from) && (Name o =? Name from)
                  && Bool.eqb (Relative o) (Relative from)); reflexivity.
  - intros Hset Hother. apply String.eqb_neq in Hset, Hother.
    rewrite Hset, Hother. reflexivity.
Qed.

(** X14. Outside a Node environment the native-module rule never applies:
    an import that no registry matches adds nothing even when it names a
    built-in module and [@types/node] is registered, and it is an
    unresolved import, fatal when validation is enabled and silent when it
    is not. *)
Theorem builtin_modules_need_node_environment mod_ :
  firstPartyUnmatched g c ix ts mod_ ->
  thirdPartyUnmatched cfg mod_ ->
  EnvironmentType cfg = EnvironmentOther ->
  (forall s, deps (step s mod_) = deps s)
  /\ (ValidateImportStatements cfg = true ->
      outcomeOf (resolve [mod_]) = Exit 1)
  /\ (ValidateImportStatements cfg = false ->
      forall s, observable (step s mod_) = observable s).
Proof.
  intros Hfirst [Hnpm Htypes] Henv.
  assert (Hnative : isNativeImport g cfg mod_ = false).
  { unfold isNativeImport. now rewrite Henv. }
  assert (Hstep : forall s, step s mod_
    = let s := DEBUG (DebugResolve (Path mod_) (Name from)) s in
      if ValidateImportStatements cfg then
        setFatal (Printf (ValidationError (label.String from) (Path mod_)
                            (SourcePath mod_) (IgnoreImportsDirective g)) s)
      else s).
  { intros s. rewrite (third_party_step g c ix ts from mod_ s Hfirst).
    cbv zeta. now rewrite Hnpm, Htypes, Hnative. }
  split; [|split].
  - intros s. rewrite Hstep. cbv zeta.
    destruct (ValidateImportStatements cfg); reflexivity.
  - intros Hval. unfold ResolveModuleDeps, resolveLoop, outcomeOf, finish.
    cbn [fold_left fst]. rewrite Hstep. cbv zeta. rewrite Hval. reflexivity.
  - intros Hval s. rewrite Hstep. cbv zeta. rewrite Hval. reflexivity.
Qed.

End Priority.

(** ** Serialisation *)

Lemma stringsOfExpr_literals (l : list string) :
  stringsOfExpr (ListExpr (map StringExpr l)) = l.
Proof.
  unfold stringsOfExpr. induction l as [|x l IH]; [reflexivity|].
  cbn [map flat_map app]. now rewrite IH.
Qed.

(** X15. The list expression determines the set and nothing else: reading
    its string literals back gives the members in order, it has as many
    items as the set has members, and two sets are serialised alike exactly
    when they have the same members, however their trees were built. *)
Theorem convertDependencySetToExpr_round_trip (d : TreeSet.t) :
  stringsOfExpr (convertDependencySetToExpr d) = Values d
  /\ length (stringsOfExpr (convertDependencySetToExpr d)) = TreeSet.cardinal d
  /\ forall d', convertDependencySetToExpr d = convertDependencySetToExpr d'
                <-> TreeSet.Equal d d'.
Proof.
  unfold convertDependencySetToExpr. rewrite stringsOfExpr_literals.
  split; [reflexivity|]. split; [unfold Values; now rewrite TreeSet.cardinal_spec|].
  intros d'. split.
  - intros H. apply (f_equal stringsOfExpr) in H.
    rewrite !stringsOfExpr_literals in H. intros x.
    now rewrite <- !Values_In, H.
  - intros H. now rewrite (Values_ext d d' H).
Qed.

(** ** The entry point *)

Section EntryPoint.

Context (g : Globals) (c : Config) (ix : RuleIndex) (ts : TypeScript)
  (from : Label).

Local Abbreviation cfg := (Exts c (languageName g) (Pkg from)).
Local Abbreviation resolve modules := (ResolveModuleDeps g c ix ts modules from).

Lemma Resolve_returns r modules r' :
  fst (fst (Resolve g c ix ts r modules from)) = Resolved r' ->
  exists d,
    outcomeOf (resolve modules) = Return d
    /\ r' = (fun r1 => if negb (GetTsConfigRule cfg =? "")
                       then SetAttr "tsconfig" (StringExpr (GetTsConfigRule cfg)) r1
                       else r1)
              (if negb (TreeSet.is_empty d)
               then SetAttr "deps" (convertDependencySetToExpr d) r else r).
Proof.
  unfold Resolve, outcomeOf.
  destruct (resolve modules) as [[[status | d] logged] traced]; cbn [fst].
  - discriminate.
  - intros [= <-]. exists d. split; reflexivity.
Qed.

(** X16. [Resolve] writes the attributes [deps] and [tsconfig] and no
    other: every other attribute of the rule is as it was. *)
Theorem Resolve_touches_only_deps_and_tsconfig r modules r' key :
  fst (fst (Resolve g c ix ts r modules from)) = Resolved r' ->
  key <> "deps" -> key <> "tsconfig" ->
  r' key = r key.
Proof.
  intros Hres Hdeps Hts. apply Resolve_returns in Hres.
  destruct Hres as (d & _ & ->). apply String.eqb_neq in Hdeps, Hts.
  destruct (negb (GetTsConfigRule cfg =? "")), (negb (TreeSet.is_empty d));
    unfold SetAttr; now rewrite ?Hdeps, ?Hts.
Qed.

(** X17. The [deps] attribute is written only when something was
    resolved: with a non-empty set it becomes the serialised set, a
    non-empty list; with an empty set the attribute is left as it was on
    the rule, an older value included. *)
Theorem Resolve_deps_attribute r modules r' :
  fst (fst (Resolve g c ix ts r modules from)) = Resolved r' ->
  exists d,
    outcomeOf (resolve modules) = Return d
    /\ ((exists x, TreeSet.In x d) ->
        r' "deps" = Some (ListExpr (map StringExpr (Values d)))
        /\ Values d <> [])
    /\ (TreeSet.Empty d -> r' "deps" = r "deps").
Proof.
  intros Hres. apply Resolve_returns in Hres. destruct Hres as (d & Hd & ->).
  exists d. split; [exact Hd|].
  assert (Hts : forall r1 : Rule,
    (if negb (GetTsConfigRule cfg =? "")
     then SetAttr "tsconfig" (StringExpr (GetTsConfigRule cfg)) r1 else r1) "deps"
    = r1 "deps").
  { intros r1. destruct (negb _); reflexivity. }
  rewrite Hts. split.
  - intros [x Hx].
    destruct (TreeSet.is_empty d) eqn:Hempty.
    + apply TreeSet.is_empty_spec in Hempty. destruct (Hempty x Hx).
    + split; [reflexivity|]. intros Hnil. apply Values_In in Hx.
      rewrite Hnil in Hx. destruct Hx.
  - intros Hempty. apply TreeSet.is_empty_spec in Hempty. now rewrite Hempty.
Qed.

(** X18. The [tsconfig] attribute does not depend on the imports: whenever
    [Resolve] returns, it is the shared compiler-configuration target of
    the package if one is declared, and is left as it was on the rule if
    none is, whether dependencies were resolved or not. *)
Theorem Resolve_tsconfig_attribute r modules r' :
  fst (fst (Resolve g c ix ts r modules from)) = Resolved r' ->
  (GetTsConfigRule cfg <> "" ->
   r' "tsconfig" = Some (StringExpr (GetTsConfigRule cfg)))
  /\ (GetTsConfigRule cfg = "" -> r' "tsconfig" = r "tsconfig").
Proof.
  intros Hres. apply Resolve_returns in Hres. destruct Hres as (d & _ & ->).
  split.
  - intros Hset. apply String.eqb_neq in Hset. rewrite Hset. reflexivity.
  - intros ->. cbn. destruct (negb (TreeSet.is_empty d)); reflexivity.
Qed.

End EntryPoint.

(** ** The further properties on the sample workspace *)

Lemma X2_witness :
  Imports (Sample.globals "") (Sample.workspace true) ["admin/index.ts"; "b.ts"] ""
  = Some [{| Lang := "js"; Imp := "admin/index" |}; {| Lang := "js"; Imp := "adm" |};
          {| Lang := "js"; Imp := "b" |}]
  /\ In {| Lang := "js"; Imp := "b" |}
       [{| Lang := "js"; Imp := "admin/index" |}; {| Lang := "js"; Imp := "adm" |};
        {| Lang := "js"; Imp := "b" |}].
Proof.
  split; [reflexivity|].
  exact (proj2 (proj2 (Imports_provides_every_source (Sample.globals "")
                         (Sample.workspace true) ["admin/index.ts"; "b.ts"] "" _
                         eq_refl)) "b.ts" (or_intror (or_introl eq_refl))).
Defined.

Lemma X3_witness :
  let g := Sample.globals "" in
  let c := Sample.workspace true in
  let srcs := ["b.ts"; "view/c.tsx"] in
  srcs <> []
  /\ (forall src, In src srcs ->
        isIndexFile g (path.Clean (path.Join ["app"; src])) = false
        /\ (filepath_Rel g (BaseDir (Exts c (languageName g) "app"))
              (path.Clean (path.Join ["app"; src])) = None
            \/ filepath_Rel g (BaseDir (Exts c (languageName g) "app"))
                 (path.Clean (path.Join ["app"; src]))
               = Some (path.Clean (path.Join ["app"; src]))))
  /\ Imports g c srcs "app"
     = Some [{| Lang := "js"; Imp := "app/b" |}; {| Lang := "js"; Imp := "app/view/c" |}].
Proof.
  cbv zeta.
  assert (Hsome : ["b.ts"; "view/c.tsx"] <> []) by discriminate.
  assert (Hall : forall src, In src ["b.ts"; "view/c.tsx"] ->
        isIndexFile (Sample.globals "") (path.Clean (path.Join ["app"; src])) = false
        /\ (filepath_Rel (Sample.globals "")
              (BaseDir (Exts (Sample.workspace true) (languageName (Sample.globals "")) "app"))
              (path.Clean (path.Join ["app"; src])) = None
            \/ filepath_Rel (Sample.globals "")
                 (BaseDir (Exts (Sample.workspace true) (languageName (Sample.globals "")) "app"))
                 (path.Clean (path.Join ["app"; src]))
               = Some (path.Clean (path.Join ["app"; src])))).
  { intros src [<- | [<- | []]]; (split; [reflexivity | right; reflexivity]). }
  split; [exact Hsome|]. split; [exact Hall|].
  exact (Imports_without_rebasing (Sample.globals "") (Sample.workspace true)
           ["b.ts"; "view/c.tsx"] "app" Hsome Hall).
Defined.

Lemma X4_witness :
  isIndexFile (Sample.globals "") "admin/index.ts" = true
  /\ exists dirSpec suffix,
       provideSpec (Sample.globals "") "admin/index.ts" "admin/index.ts"
       = [{| Lang := "js"; Imp := "admin/index" |}; {| Lang := "js"; Imp := dirSpec |}]
       /\ "admin" = (dirSpec ++ suffix)%string
       /\ allInCutset suffix indexFileName = true
       /\ endsInCutset dirSpec indexFileName = false
       /\ (dirSpec = "admin" <-> endsInCutset "admin" indexFileName = false).
Proof.
  split; [reflexivity|].
  exact (index_directory_spec (Sample.globals "") "admin/index.ts" "admin/index.ts"
           eq_refl).
Defined.

Lemma X6_witness :
  let modules := [Sample.import "foo" "app/main.ts";
                  Sample.import "lib/util" "app/main.ts"] in
  exists d,
    outcomeOf (Sample.resolve true modules) = Return d
    /\ (TreeSet.In "//lib:util" d <->
        exists mod_ dm, In mod_ modules
                        /\ outcomeOf (Sample.resolve true [mod_]) = Return dm
                        /\ TreeSet.In "//lib:util" dm).
Proof.
  cbv zeta.
  exists (deps (resolveLoop (Sample.globals "") (Sample.workspace true) Sample.ix
                  Sample.ts [Sample.import "foo" "app/main.ts";
                             Sample.import "lib/util" "app/main.ts"]
                  Sample.from initial)).
  split; [reflexivity|].
  exact (returned_set_is_the_union (Sample.globals "") (Sample.workspace true)
           Sample.ix Sample.ts Sample.from
           [Sample.import "foo" "app/main.ts"; Sample.import "lib/util" "app/main.ts"]
           _ eq_refl "//lib:util").
Defined.

Lemma X9_witness :
  let g := Sample.globals "//:node_modules/foo" in
  let modules := [Sample.import "lib/util" "app/main.ts";
                  Sample.import "foo" "app/view.ts"] in
  let line := Explaining "//:node_modules/foo" "//app:lib" "app/view.ts" "foo"
                (ByThirdPartyPackage "//:node_modules/foo") in
  In line (logOf (ResolveModuleDeps g (Sample.workspace true) Sample.ix Sample.ts
                    modules Sample.from))
  /\ forall d,
       outcomeOf (ResolveModuleDeps g (Sample.workspace true) Sample.ix Sample.ts
                    modules Sample.from) = Return d ->
       TreeSet.In "//:node_modules/foo" d.
Proof.
  cbv zeta.
  assert (Hin : In (Explaining "//:node_modules/foo" "//app:lib" "app/view.ts" "foo"
                      (ByThirdPartyPackage "//:node_modules/foo"))
                  (logOf (ResolveModuleDeps (Sample.globals "//:node_modules/foo")
                            (Sample.workspace true) Sample.ix Sample.ts
                            [Sample.import "lib/util" "app/main.ts";
                             Sample.import "foo" "app/view.ts"] Sample.from)))
    by (left; reflexivity).
  split; [exact Hin|].
  exact (proj2 (proj2 (proj2
    (explanations_are_about_added_dependencies (Sample.globals "//:node_modules/foo")
       (Sample.workspace true) Sample.ix Sample.ts Sample.from _ _ _ _ _ _ Hin)))).
Defined.

Lemma X10_witness :
  let a := Sample.import "foo" "app/main.ts" in
  let b := Sample.import "left-pad" "app/main.ts" in
  incl [b] [a; b]
  /\ outcomeOf (Sample.resolve true [b]) = Exit 1
  /\ outcomeOf (Sample.resolve true [a; b]) = Exit 1.
Proof.
  cbv zeta.
  assert (Hincl : incl [Sample.import "left-pad" "app/main.ts"]
                    [Sample.import "foo" "app/main.ts";
                     Sample.import "left-pad" "app/main.ts"]).
  { intros x [<- | []]. right. now left. }
  split; [exact Hincl|]. split; [reflexivity|].
  exact (proj1 (more_imports_only_add (Sample.globals "") (Sample.workspace true)
                  Sample.ix Sample.ts Sample.from _ _ Hincl) eq_refl).
Defined.

Lemma X11_witness :
  let g := Sample.globals "" in
  let c := Sample.workspace true in
  let mod_ := Sample.import "app/helper" "app/main.ts" in
  FindRuleWithOverride c (importSpec g mod_) (languageName g) = None
  /\ FindRulesByImportWithConfig Sample.ix2 c (importSpec g mod_) (languageName g)
     = [Sample.found Sample.from; Sample.found (Sample.lbl "" "app" "helper")]
  /\ filterMatches Sample.from
       (FindRulesByImportWithConfig Sample.ix2 c (importSpec g mod_) (languageName g))
     = [Sample.found (Sample.lbl "" "app" "helper")]
  /\ exists d,
       outcomeOf (ResolveModuleDeps g c Sample.ix2 Sample.ts [mod_] Sample.from)
       = Return d
       /\ Values d = [":helper"].
Proof.
  cbv zeta. split; [reflexivity|]. split; [reflexivity|]. split; [reflexivity|].
  exact (proj1 (proj2
    (single_candidate_is_resolved (Sample.globals "") (Sample.workspace true)
       Sample.ix2 Sample.ts Sample.from
       (Sample.import "app/helper" "app/main.ts")
       (Sample.found (Sample.lbl "" "app" "helper")) eq_refl eq_refl))).
Defined.

Lemma X12_witness :
  let g := Sample.globals "" in
  let c := Sample.workspace true in
  let mod_ := Sample.import "@corp/lib" "app/main.ts" in
  FindRuleWithOverride c (importSpec g mod_) (languageName g) = None
  /\ FindRulesByImportWithConfig Sample.ix c (importSpec g mod_) (languageName g) = []
  /\ GetNamedPackage Sample.ts (Path mod_) = Some "//app:lib"
  /\ forall s,
       deps (resolveImport g c Sample.ix Sample.ts Sample.from s mod_)
       = TreeSet.add "//app:lib" (deps s).
Proof.
  cbv zeta. split; [reflexivity|]. split; [reflexivity|]. split; [reflexivity|].
  intros s.
  exact (proj1 (proj1
    (first_party_registries_precede_npm (Sample.globals "") (Sample.workspace true)
       Sample.ix Sample.ts Sample.from (Sample.import "@corp/lib" "app/main.ts")
       "//app:lib" eq_refl eq_refl (or_introl eq_refl)) s)).
Defined.

Lemma X13_witness :
  let o := Sample.lbl "" "shared" "api" in
  let far := Sample.lbl "vendor" "shared" "api" in
  (Repo o = "" \/ Repo o = Repo Sample.from)
  /\ overrideDep Sample.from o = Some (withRepo o "")
  /\ Repo far <> "" /\ Repo far <> Repo Sample.from
  /\ overrideDep Sample.from far = Some far.
Proof.
  cbv zeta.
  assert (Hnear : Repo (Sample.lbl "" "shared" "api") = ""
                  \/ Repo (Sample.lbl "" "shared" "api") = Repo Sample.from)
    by (left; reflexivity).
  assert (Hset : Repo (Sample.lbl "vendor" "shared" "api") <> "") by discriminate.
  assert (Hother : Repo (Sample.lbl "vendor" "shared" "api") <> Repo Sample.from)
    by discriminate.
  split; [exact Hnear|]. split.
  - exact (proj1 (override_repository_normalised Sample.from
                    (Sample.lbl "" "shared" "api")) Hnear).
  - split; [exact Hset|]. split; [exact Hother|].
    exact (proj2 (override_repository_normalised Sample.from
                    (Sample.lbl "vendor" "shared" "api")) Hset Hother).
Defined.

Lemma X14_witness :
  let g := Sample.globals "" in
  let c := Sample.browserWorkspace true in
  let cfg := Exts c (languageName g) (Pkg Sample.from) in
  let mod_ := Sample.import "fs" "app/main.ts" in
  firstPartyUnmatched g c Sample.ix Sample.ts mod_
  /\ thirdPartyUnmatched cfg mod_
  /\ EnvironmentType cfg = EnvironmentOther
  /\ isNodeImport g (Path mod_) = true
  /\ GetNpmPackage cfg "@types/node" = Some "//:node_modules/@types/node"
  /\ outcomeOf (ResolveModuleDeps g c Sample.ix Sample.ts [mod_] Sample.from) = Exit 1.
Proof.
  cbv zeta.
  assert (Hfirst : firstPartyUnmatched (Sample.globals "") (Sample.browserWorkspace true)
                     Sample.ix Sample.ts (Sample.import "fs" "app/main.ts"))
    by (repeat split).
  assert (Hthird : thirdPartyUnmatched
                     (Exts (Sample.browserWorkspace true)
                        (languageName (Sample.globals "")) (Pkg Sample.from))
                     (Sample.import "fs" "app/main.ts"))
    by (repeat split).
  split; [exact Hfirst|]. split; [exact Hthird|]. split; [reflexivity|].
  split; [reflexivity|]. split; [reflexivity|].
  exact (proj1 (proj2
    (builtin_modules_need_node_environment (Sample.globals "")
       (Sample.browserWorkspace true) Sample.ix Sample.ts Sample.from
       (Sample.import "fs" "app/main.ts") Hfirst Hthird eq_refl)) eq_refl).
Defined.

Lemma X16_witness :
  exists r',
    fst (fst (Resolve (Sample.globals "") Sample.tsconfigWorkspace Sample.ix Sample.ts
                Sample.rule [Sample.import "foo" "app/main.ts"] Sample.from))
    = Resolved r'
    /\ r' "name" = Some (StringExpr "lib").
Proof.
  eexists. split; [reflexivity|].
  assert (Hdeps : "name" <> "deps") by discriminate.
  assert (Hts : "name" <> "tsconfig") by discriminate.
  exact (Resolve_touches_only_deps_and_tsconfig (Sample.globals "")
           Sample.tsconfigWorkspace Sample.ix Sample.ts Sample.from Sample.rule
           [Sample.import "foo" "app/main.ts"] _ "name" eq_refl Hdeps Hts).
Defined.

Lemma X17_witness :
  exists r',
    fst (fst (Resolve (Sample.globals "") Sample.tsconfigWorkspace Sample.ix Sample.ts
                Sample.rule [] Sample.from))
    = Resolved r'
    /\ exists d,
         outcomeOf (ResolveModuleDeps (Sample.globals "") Sample.tsconfigWorkspace
                      Sample.ix Sample.ts [] Sample.from) = Return d
         /\ ((exists x, TreeSet.In x d) ->
             r' "deps" = Some (ListExpr (map StringExpr (Values d)))
             /\ Values d <> [])
         /\ (TreeSet.Empty d -> r' "deps" = Sample.rule "deps").
Proof.
  eexists. split; [reflexivity|].
  exact (Resolve_deps_attribute (Sample.globals "") Sample.tsconfigWorkspace
           Sample.ix Sample.ts Sample.from Sample.rule [] _ eq_refl).
Defined.

Lemma X18_witness :
  exists r',
    fst (fst (Resolve (Sample.globals "") Sample.tsconfigWorkspace Sample.ix Sample.ts
                Sample.rule [Sample.import "foo" "app/main.ts"] Sample.from))
    = Resolved r'
    /\ r' "tsconfig" = Some (StringExpr "//:tsconfig").
Proof.
  eexists. split; [reflexivity|].
  assert (Hset : GetTsConfigRule
                   (Exts Sample.tsconfigWorkspace (languageName (Sample.globals ""))
                      (Pkg Sample.from)) <> "") by discriminate.
  exact (proj1 (Resolve_tsconfig_attribute (Sample.globals "")
                  Sample.tsconfigWorkspace Sample.ix Sample.ts Sample.from Sample.rule
                  [Sample.import "foo" "app/main.ts"] _ eq_refl) Hset).
Defined.

(** ** Which adds can go unexplained *)

Section Unexplained.

Context (g : Globals) (c : Config) (ix : RuleIndex) (ts : TypeScript)
  (from : Label).

Local Abbreviation cfg := (Exts c (languageName g) (Pkg from)).
Local Abbreviation alone mod_ := (resolveImport g c ix ts from initial mod_).

(** X19. When an import adds the explain target, an explanation naming
    that import is logged, unless the target came in as the
    typed-declarations companion of a registered npm package or as
    [@types/node] through the native-module rule: these two adds are the
    only ones that can go unexplained. *)
Theorem only_two_adds_go_unexplained mod_ :
  TreeSet.In (EXPLAIN_DEPENDENCY g) (deps (alone mod_)) ->
  (exists how,
     In (Explaining (EXPLAIN_DEPENDENCY g) (label.String from) (SourcePath mod_)
           (Path mod_) how) (log (alone mod_)))
  \/ (firstPartyUnmatched g c ix ts mod_
      /\ (exists pkg, GetNpmPackage cfg (Path mod_) = Some pkg)
      /\ GetNpmPackage cfg ("@types/" ++ Path mod_) = Some (EXPLAIN_DEPENDENCY g))
  \/ (firstPartyUnmatched g c ix ts mod_
      /\ thirdPartyUnmatched cfg mod_
      /\ isNativeImport g cfg mod_ = true
      /\ GetNpmPackage cfg "@types/node" = Some (EXPLAIN_DEPENDENCY g)).
Proof.
  unfold firstPartyUnmatched, thirdPartyUnmatched, isNativeImport, importSpec.
  unfold resolveImport.
  chain; cbn [log deps DEBUG Add setFatal Printf initial]; unfold explain;
    repeat match goal with
      | |- context [if ?b then _ else _] => destruct b eqn:?
      end;
    cbn [log deps DEBUG Add setFatal Printf initial app In];
    rewrite ?TreeSet.add_spec; intros Hin;
    repeat match goal with
      | H : _ \/ _ |- _ => destruct H
      | H : TreeSet.In _ TreeSet.empty |- _ => apply TreeSet.empty_spec in H; destruct H
      | H : (?a =? ?b) = false, E : ?a = ?b |- _ =>
          apply String.eqb_neq in H; contradiction
      end;
    try (left; eexists; left; reflexivity);
    match goal with
    | H : Nat.ltb 0 (length ?l) = false |- _ =>
        destruct l; [|discriminate H]
    end;
    match goal with
    | E : EXPLAIN_DEPENDENCY g = _ |- _ => rewrite E
    end;
    solve [ right; left; repeat split; eauto
          | right; right; repeat split; eauto ].
Qed.

End Unexplained.

Section Rebasing.

Context (g : Globals) (c : Config).

(** X20. When [filepath.Rel] answers a path other than the full path of a
    source, the extension-stripped rebased path is provided as well, so the
    source can be imported relative to the base directory. *)
Theorem Imports_provides_rebased_path srcs pkg src rebased provides :
  Imports g c srcs pkg = Some provides ->
  In src srcs ->
  filepath_Rel g (BaseDir (Exts c (languageName g) pkg))
    (path.Clean (path.Join [pkg; src])) = Some rebased ->
  rebased <> path.Clean (path.Join [pkg; src]) ->
  In {| Lang := languageName g; Imp := stripImportExtensions g rebased |} provides.
Proof.
  unfold Imports. intros Hprov Hin Hrel Hdiff.
  assert (Hflat : In {| Lang := languageName g; Imp := stripImportExtensions g rebased |}
                    (flat_map (provideSrc g (BaseDir (Exts c (languageName g) pkg)) pkg)
                       srcs)).
  { apply in_flat_map. exists src. split; [exact Hin|].
    unfold provideSrc, sourceSpecs. rewrite Hrel.
    apply String.eqb_neq in Hdiff. rewrite Hdiff. cbn [negb flat_map].
    apply in_or_app. right. rewrite app_nil_r.
    destruct (provideSpec_shape g (path.Clean (path.Join [pkg; src])) rebased)
      as (rest & -> & _). now left. }
  destruct (flat_map _ srcs); [discriminate|]. injection Hprov as <-. exact Hflat.
Qed.

End Rebasing.

Lemma X19_witness :
  let g := Sample.globals "//:node_modules/foo" in
  let c := Sample.workspace true in
  let mod_ := Sample.import "foo" "app/main.ts" in
  TreeSet.In (EXPLAIN_DEPENDENCY g)
    (deps (resolveImport g c Sample.ix Sample.ts Sample.from initial mod_))
  /\ ((exists how,
         In (Explaining (EXPLAIN_DEPENDENCY g) (label.String Sample.from)
               (SourcePath mod_) (Path mod_) how)
            (log (resolveImport g c Sample.ix Sample.ts Sample.from initial mod_)))
      \/ (firstPartyUnmatched g c Sample.ix Sample.ts mod_
          /\ (exists pkg,
                GetNpmPackage (Exts c (languageName g) (Pkg Sample.from)) (Path mod_)
                = Some pkg)
          /\ GetNpmPackage (Exts c (languageName g) (Pkg Sample.from))
               ("@types/" ++ Path mod_) = Some (EXPLAIN_DEPENDENCY g))
      \/ (firstPartyUnmatched g c Sample.ix Sample.ts mod_
          /\ thirdPartyUnmatched (Exts c (languageName g) (Pkg Sample.from)) mod_
          /\ isNativeImport g (Exts c (languageName g) (Pkg Sample.from)) mod_ = true
          /\ GetNpmPackage (Exts c (languageName g) (Pkg Sample.from)) "@types/node"
             = Some (EXPLAIN_DEPENDENCY g))).
Proof.
  cbv zeta.
  assert (Hin : TreeSet.In (EXPLAIN_DEPENDENCY (Sample.globals "//:node_modules/foo"))
                  (deps (resolveImport (Sample.globals "//:node_modules/foo")
                           (Sample.workspace true) Sample.ix Sample.ts Sample.from
                           initial (Sample.import "foo" "app/main.ts"))))
    by decide_member.
  split; [exact Hin|].
  exact (only_two_adds_go_unexplained (Sample.globals "//:node_modules/foo")
           (Sample.workspace true) Sample.ix Sample.ts Sample.from
           (Sample.import "foo" "app/main.ts") Hin).
Defined.

Lemma X20_witness :
  Imports Sample.srcGlobals Sample.srcWorkspace ["src/util/math.ts"] ""
  = Some [{| Lang := "js"; Imp := "src/util/math" |};
          {| Lang := "js"; Imp := "util/math" |}]
  /\ filepath_Rel Sample.srcGlobals "src" "src/util/math.ts" = Some "util/math.ts"
  /\ In {| Lang := "js"; Imp := "util/math" |}
       [{| Lang := "js"; Imp := "src/util/math" |};
        {| Lang := "js"; Imp := "util/math" |}].
Proof.
  assert (Hdiff : "util/math.ts" <> path.Clean (path.Join [""; "src/util/math.ts"]))
    by discriminate.
  split; [reflexivity|]. split; [reflexivity|].
  exact (Imports_provides_rebased_path Sample.srcGlobals Sample.srcWorkspace
           ["src/util/math.ts"] "" "src/util/math.ts" "util/math.ts" _
           eq_refl (or_introl eq_refl) eq_refl Hdiff).
Defined.
